(** * docker.manager: the Docker manager of docker-simple-py

    A shallow embedding of [src/docker/manager.py].  Text is modelled as
    [string] (a list of 8-bit characters); in that range the regular
    expression class [\d] is exactly the ASCII digits.  The external
    [execute] helper and the container behind it are a parameter of the
    development: a transport that, given the history of calls and a command
    line, either returns a [ProcessResult] or raises. *)

From Stdlib Require Import Bool Arith Lia List String Ascii ZArith NArith.
From Stdlib Require Import DecimalString DecimalPos DecimalN.
Import ListNotations.
Open Scope string_scope.

(** ** Characters that cannot be written inside a literal *)

Definition LF : string := String "010"%char EmptyString.
Definition DQUOTE : string := String "034"%char EmptyString.
Definition SQUOTE : string := "'".
(** The two characters backslash and [n], as the pattern [\\n] matches them. *)
Definition BACKSLASH_N : string := String "092"%char (String "n"%char EmptyString).

(** ** The Python string operations the module uses *)

Module Py.

(** [s.startswith(p)] *)
Fixpoint startswith (s p : string) {struct p} : bool :=
  match p with
  | EmptyString => true
  | String a p' =>
      match s with
      | EmptyString => false
      | String b s' => Ascii.eqb a b && startswith s' p'
      end
  end.

(** [s[n:]] for [0 <= n] *)
Fixpoint drop (n : nat) (s : string) : string :=
  match n with
  | O => s
  | S n' => match s with EmptyString => EmptyString | String _ s' => drop n' s' end
  end.

(** [s[:n]] for [0 <= n] *)
Fixpoint take (n : nat) (s : string) : string :=
  match n with
  | O => EmptyString
  | S n' => match s with EmptyString => EmptyString | String c s' => String c (take n' s') end
  end.

(** [s.endswith(p)] *)
Definition endswith (s p : string) : bool :=
  Nat.leb (length p) (length s) && String.eqb (drop (length s - length p) s) p.

(** The scan of [s.replace(old, new)] for a non-empty [old]: [skip] counts
    the characters of a replaced occurrence that are still to be passed. *)
Fixpoint replace_scan (old new s : string) (skip : nat) : string :=
  match s with
  | EmptyString => EmptyString
  | String c s' =>
      match skip with
      | S k => replace_scan old new s' k
      | O =>
          if startswith s old
          then new ++ replace_scan old new s' (length old - 1)
          else String c (replace_scan old new s' 0)
      end
  end.

(** What [s.replace("", new)] does: [new] before every character and at the end. *)
Fixpoint intersperse (new s : string) : string :=
  match s with
  | EmptyString => new
  | String c s' => new ++ String c (intersperse new s')
  end.

(** [s.replace(old, new)]: every occurrence, leftmost first, not overlapping. *)
Definition replace (s old new : string) : string :=
  match old with
  | EmptyString => intersperse new s
  | _ => replace_scan old new s 0
  end.

(** The scan of [s.split(sep)] for a non-empty [sep]; [cur] is the piece
    under construction. *)
Fixpoint split_scan (sep s : string) (skip : nat) (cur : string) : list string :=
  match s with
  | EmptyString => [cur]
  | String c s' =>
      match skip with
      | S k => split_scan sep s' k cur
      | O =>
          if startswith s sep
          then cur :: split_scan sep s' (length sep - 1) EmptyString
          else split_scan sep s' 0 (cur ++ String c EmptyString)
      end
  end.

(** [s.split(sep)]; the module only calls it with the separator [", "]
    (an empty separator raises [ValueError] in Python). *)
Definition split (s sep : string) : list string := split_scan sep s 0 EmptyString.

(** [int(s)] on a string of ASCII digits. *)
Definition int (s : string) : Z :=
  match NilZero.uint_of_string s with
  | Some u => Z.of_N (N.of_uint u)
  | None => 0%Z
  end.

(** [str(n)] for a non-negative [n]. *)
Definition str_of_N (n : N) : string := NilZero.string_of_uint (N.to_uint n).

(** [str(z)] for an integer. *)
Definition str (z : Z) : string :=
  match z with
  | Z0 => "0"
  | Zpos p => str_of_N (Npos p)
  | Zneg p => "-" ++ str_of_N (Npos p)
  end.

(** [os.path.join(a, b)] of [posixpath], for two arguments. *)
Definition os_path_join (a b : string) : string :=
  if startswith b "/" then b
  else if (String.eqb a EmptyString || endswith a "/")%bool then a ++ b
  else a ++ "/" ++ b.

End Py.

(** ** [re.search(r'(?:\\n)?--return-(\d+)--$', text)] *)

Module Re.

(** A match object: where it starts, [group(0)] and [group(1)]. *)
Record Match : Type := mkMatch { m_start : nat; group0 : string; group1 : string }.

Definition is_digit (c : ascii) : bool :=
  Nat.leb 48 (nat_of_ascii c) && Nat.leb (nat_of_ascii c) 57.

Section Pattern.
Context {R : Type}.

(** A literal: the text has to start with [p]. *)
Definition lit (p : string) (k : string -> option R) (s : string) : option R :=
  if Py.startswith s p then k (Py.drop (length p) s) else None.

(** [(?: ... )?], greedy: first with the group, then without it. *)
Definition opt (m : (string -> option R) -> string -> option R)
           (k : string -> option R) (s : string) : option R :=
  match m k s with
  | Some r => Some r
  | None => k s
  end.

(** [(\d+)], greedy with backtracking: the longest run of digits first,
    then one digit fewer at a time; [k] receives the captured digits. *)
Fixpoint digits1 (k : string -> string -> option R) (s : string) : option R :=
  match s with
  | EmptyString => None
  | String c s' =>
      if is_digit c then
        match digits1 (fun ds r => k (String c ds) r) s' with
        | Some r => Some r
        | None => k (String c EmptyString) s'
        end
      else None
  end.
End Pattern.

(** [$] without [re.MULTILINE]: at the end of the text, or just before a
    line feed that is its last character. *)
Definition at_dollar (s : string) : bool :=
  String.eqb s EmptyString || String.eqb s LF.

(** [--return-(\d+)--$], the part of the pattern after the optional
    group, tried on the rest [s] of the text [whole] the match started in;
    the result is [(group(0), group(1))]. *)
Definition sentinel_tail (whole : string) (s : string) : option (string * string) :=
  lit "--return-"
      (digits1 (fun ds =>
                  lit "--"
                      (fun r =>
                         if at_dollar r
                         then Some (Py.take (length whole - length r) whole, ds)
                         else None)))
      s.

(** The whole pattern tried at the start of [s]. *)
Definition match_here (s : string) : option (string * string) :=
  opt (lit BACKSLASH_N) (sentinel_tail s) s.

(** [re.search]: the leftmost position, from [pos] on, where the pattern matches. *)
Fixpoint search_from (pos : nat) (s : string) : option Match :=
  match match_here s with
  | Some (g0, g1) => Some (mkMatch pos g0 g1)
  | None =>
      match s with
      | EmptyString => None
      | String _ s' => search_from (S pos) s'
      end
  end.

Definition search (s : string) : option Match := search_from 0 s.

(** Texts made of digits only, and texts that begin with a digit. *)
Fixpoint all_digits (s : string) : bool :=
  match s with
  | EmptyString => true
  | String c s' => is_digit c && all_digits s'
  end.

Definition starts_with_digit (s : string) : bool :=
  match s with
  | EmptyString => false
  | String c _ => is_digit c
  end.

End Re.

(** ** [Docker._get_working_directory] *)

Definition _get_working_directory (working_directory : string) : string :=
  if (Py.startswith working_directory "/" || Py.startswith working_directory "~/")%bool
  then working_directory
  else "~/" ++ working_directory.

(** ** Results, failures and the history of external calls *)

(** Modelled from the spec: the result class of [docker.helpers], which is
    not among the sources.  Its fields are the [out] and [return_code] that
    [run] reads and updates, and the [err] of the interface
    "execute(command_string) -> {out, err, exit_code, succeeded}". *)
Record ProcessResult : Type :=
  mkResult { out : string; err : string; return_code : Z }.

Definition set_return_code (r : ProcessResult) (c : Z) : ProcessResult :=
  mkResult (out r) (err r) c.

Definition set_out (r : ProcessResult) (o : string) : ProcessResult :=
  mkResult o (err r) (return_code r).

(** Modelled from the spec: the [succeeded] property of the result class of
    [docker.helpers], which is not among the sources; the data model calls
    it "a derived success flag (exit status == 0)". *)
Definition succeeded (r : ProcessResult) : bool := Z.eqb (return_code r) 0.

(** A Python exception value; [exn_truthy] is what [bool(exc_value)] gives. *)
Record Exn : Type :=
  mkExn { exn_class : string; exn_message : string; exn_truthy : bool }.

(** Modelled from the spec: [docker.errors.DockerUnavailableError], not
    among the sources; an exception class like any other, so a true value. *)
Definition DockerUnavailableError (message : string) : Exn :=
  mkExn "DockerUnavailableError" message true.

(** What the manager does to the outside: command lines handed to
    [execute], and calls of [sleep]. *)
Inductive Event : Type :=
| Executed (command : string)
| Slept (seconds : nat).

(** The history of external calls, oldest first. *)
Definition World : Type := list Event.

Inductive Outcome (A : Type) : Type :=
| Ret (a : A)
| Raise (e : Exn).
Arguments Ret {A} a.
Arguments Raise {A} e.

(** Computations that read and extend the history and may raise. *)
Definition M (A : Type) : Type := World -> Outcome A * World.

Definition ret {A : Type} (a : A) : M A := fun w => (Ret a, w).

Definition raise {A : Type} (e : Exn) : M A := fun w => (Raise e, w).

Definition bind {A B : Type} (c : M A) (k : A -> M B) : M B :=
  fun w =>
    match c w with
    | (Ret a, w') => k a w'
    | (Raise e, w') => (Raise e, w')
    end.

Notation "x <- c ;; k" := (bind c (fun x => k))
  (at level 61, c at next level, right associativity).
Notation "c ;;; k" := (bind c (fun _ => k))
  (at level 61, right associativity).

(** [sleep(seconds)] *)
Definition sleep (seconds : nat) : M unit := fun w => (Ret tt, (w ++ [Slept seconds])%list).

(** ** The manager *)

Record Docker : Type :=
  mkDocker {
      container_name : string;
      timeout : Z;
      image : string;
      privilege : bool;
      combine_outputs : bool
    }.

(** [Docker.__init__]; [uuid4] is the text of the fresh [uuid.uuid4()]. *)
Definition Docker_init (image name_prefix : string) (timeout : Z)
           (privilege combine_outputs : bool) (uuid4 : string) : Docker :=
  mkDocker (name_prefix ++ "-" ++ uuid4) timeout image privilege combine_outputs.

(** The suffix that prints the status of the command between the markers. *)
Definition sentinel_emission : string :=
  " ;  echo " ++ DQUOTE ++ "--return-$?--" ++ DQUOTE.

(** Lines 66-75 of [run]: the command line handed to [execute]. *)
Definition exec_command_line (self : Docker) (command working_directory : string) : string :=
  let working_directory := _get_working_directory working_directory in
  let command := Py.replace command SQUOTE DQUOTE in
  let command_string :=
    "cd " ++ working_directory ++ " && " ++ command
    ++ (if combine_outputs self then " 2>&1" else "") in
  "docker exec -i " ++ container_name self ++ " bash -c '"
  ++ command_string ++ sentinel_emission ++ "'".

(** Lines 78-84 of [run]: the status is read from the tail of the output
    and the output is cleaned. *)
Definition recover_status (result : ProcessResult) : ProcessResult :=
  match Re.search (out result) with
  | Some return_code_match =>
      let result := set_return_code result (Py.int (Re.group1 return_code_match)) in
      let result := set_out result (Py.replace (out result) (Re.group0 return_code_match) "") in
      if Py.endswith (out result) LF
      then set_out result (Py.take (length (out result) - 1) (out result))
      else result
  | None => result
  end.

Section Manager.

(** The [execute] helper of [docker.helpers] together with the machine it
    talks to: what a command line yields after a given history. *)
Variable transport : World -> string -> Outcome ProcessResult.

Definition execute (command : string) : M ProcessResult :=
  fun w => (transport w command, (w ++ [Executed command])%list).

Definition run (self : Docker) (command working_directory : string) : M ProcessResult :=
  result <- execute (exec_command_line self command working_directory) ;;
  ret (recover_status result).

Definition read_file (self : Docker) (path : string) : M (option string) :=
  let path := _get_working_directory path in
  result <- run self ("cat " ++ path) "" ;;
  if succeeded result then ret (Some (out result)) else ret None.

Definition create_file (self : Docker) (path content : string) : M ProcessResult :=
  let path := _get_working_directory path in
  run self ("echo " ++ DQUOTE ++ content ++ DQUOTE ++ " >> " ++ path) "".

Definition file_exist (self : Docker) (path : string) : M bool :=
  let path := _get_working_directory path in
  result <- run self ("test -f " ++ path) "" ;;
  ret (Z.eqb (return_code result) 0).

Definition directory_exist (self : Docker) (path : string) : M bool :=
  let path := _get_working_directory path in
  result <- run self ("test -d " ++ path) "" ;;
  ret (Z.eqb (return_code result) 0).

(** The body of the [for] loop of [list_files], over the entries still
    to visit; [result] is the list built so far. *)
Fixpoint list_files_loop (self : Docker) (path : string) (entries result : list string)
  : M (list string) :=
  match entries with
  | [] => ret result
  | file_path :: entries' =>
      let full_path := Py.os_path_join path file_path in
      is_file <- file_exist self full_path ;;
      if is_file then
        is_dir <- directory_exist self full_path ;;
        if negb is_dir
        then list_files_loop self path entries' (result ++ [file_path])%list
        else list_files_loop self path entries' result
      else list_files_loop self path entries' result
  end.

Definition list_files (self : Docker) (path : string) : M (list string) :=
  let path := _get_working_directory path in
  listing <- run self ("ls -m " ++ path) "" ;;
  list_files_loop self path (Py.split (out listing) ", ") [].

Fixpoint list_directories_loop (self : Docker) (path : string)
         (include_trailing_slash : bool) (entries result : list string)
  : M (list string) :=
  match entries with
  | [] => ret result
  | file_path :: entries' =>
      is_dir <- directory_exist self (Py.os_path_join path file_path) ;;
      if is_dir then
        if include_trailing_slash
        then list_directories_loop self path include_trailing_slash entries'
                                   (result ++ [file_path])%list
        else list_directories_loop self path include_trailing_slash entries'
                                   (result ++ [Py.take (length file_path - 1) file_path])%list
      else list_directories_loop self path include_trailing_slash entries' result
  end.

Definition list_directories (self : Docker) (path : string) (include_trailing_slash : bool)
  : M (list string) :=
  let working_directory := _get_working_directory path in
  listing <- run self "ls -dm */" working_directory ;;
  list_directories_loop self path include_trailing_slash
                        (Py.split (out listing) ", ") [].

Definition start (self : Docker) : M Docker :=
  let command_string :=
    if privilege self
    then "docker run -d --privileged --name " ++ container_name self ++ " "
         ++ image self ++ " /bin/sleep " ++ Py.str (timeout self)
    else "docker run -d --name " ++ container_name self ++ " "
         ++ image self ++ " /bin/sleep " ++ Py.str (timeout self) in
  result <- execute command_string ;;
  if negb (succeeded result)
  then raise (DockerUnavailableError "Starting the docker container failed.")
  else ret self.

Definition stop (self : Docker) : M Docker :=
  sleep 2 ;;;
  execute ("docker kill " ++ container_name self) ;;;
  execute ("docker rm " ++ container_name self) ;;;
  ret self.

Definition __enter__ (self : Docker) : M Docker := start self.

(** [__exit__] returns [None], which is false, unless it raises. *)
Definition __exit__ (self : Docker) (exc_value : option Exn) : M bool :=
  stop self ;;;
  match exc_value with
  | Some e => if exn_truthy e then raise e else ret false
  | None => ret false
  end.

(** The statement [with manager as docker: body], as the language
    defines it: [__exit__] runs when the body returns and when it raises;
    a failure of the body is raised again unless [__exit__] returns a
    true value, in which case the statement ends without a value. *)
Definition with_ {A : Type} (manager : Docker) (body : Docker -> M A) : M (option A) :=
  fun w =>
    match __enter__ manager w with
    | (Raise e, w1) => (Raise e, w1)
    | (Ret docker, w1) =>
        match body docker w1 with
        | (Ret a, w2) =>
            match __exit__ manager None w2 with
            | (Ret _, w3) => (Ret (Some a), w3)
            | (Raise e', w3) => (Raise e', w3)
            end
        | (Raise e, w2) =>
            match __exit__ manager (Some e) w2 with
            | (Ret suppress, w3) => if suppress then (Ret None, w3) else (Raise e, w3)
            | (Raise e', w3) => (Raise e', w3)
            end
        end
    end.


End Manager.

(** ** Vocabulary of the properties *)

(** Lines 82-83 of [run] as a function of the text: one final line feed
    is dropped, nothing else. *)
Definition drop_final_line_feed (text : string) : string :=
  if Py.endswith text LF then Py.take (length text - 1) text else text.

(** The text without the one occurrence the match object stands for. *)
Definition without_match (text : string) (m : Re.Match) : string :=
  Py.take (Re.m_start m) text ++ Py.drop (Re.m_start m + length (Re.group0 m)) text.

(** The markers around a non-empty run of digits, at the start of [s]. *)
Definition sentinel_here (s : string) : bool :=
  match Re.lit "--return-" (Re.digits1 (fun _ => Re.lit "--" (fun _ => Some tt))) s with
  | Some _ => true
  | None => false
  end.

(** The markers around digits somewhere in [s]. *)
Fixpoint has_sentinel (s : string) : bool :=
  sentinel_here s
  || match s with
     | EmptyString => false
     | String _ s' => has_sentinel s'
     end.

(** The character [c] occurs in [s]. *)
Fixpoint contains_char (c : ascii) (s : string) : bool :=
  match s with
  | EmptyString => false
  | String x s' => Ascii.eqb x c || contains_char c s'
  end.

Fixpoint map_string (f : ascii -> ascii) (s : string) : string :=
  match s with
  | EmptyString => EmptyString
  | String x s' => String (f x) (map_string f s')
  end.

(** A single quote becomes a double quote, any other character stays. *)
Definition requote (c : ascii) : ascii :=
  if Ascii.eqb c "'"%char then "034"%char else c.

(** The text the sentinel emission prints for the status [n]. *)
Definition sentinel_line (n : Z) : string := "--return-" ++ Py.str n ++ "--" ++ LF.

(** ** Containers used as concrete inputs *)

Definition demo : Docker := Docker_init "ubuntu" "dyn" 3600 false false "0000".

(** A container whose every command prints [text] and nothing else. *)
Definition printing (text : string) : World -> string -> Outcome ProcessResult :=
  fun _ _ => Ret (mkResult text "" 0).

(** A container with the directory [~/d], holding the file [a.txt] and the
    directory [b]; any other command fails with status 1. *)
Definition small_tree : World -> string -> Outcome ProcessResult :=
  fun _ command =>
    if String.eqb command (exec_command_line demo "ls -m ~/d" "")
    then Ret (mkResult ("a.txt, b" ++ LF ++ sentinel_line 0) "" 0)
    else if String.eqb command (exec_command_line demo "test -f ~/d/a.txt" "")
    then Ret (mkResult (sentinel_line 0) "" 0)
    else if String.eqb command (exec_command_line demo ("test -d ~/d/b" ++ LF) "")
    then Ret (mkResult (sentinel_line 0) "" 0)
    else Ret (mkResult (sentinel_line 1) "" 0).

(** A unit of work that fails. *)
Definition failing_work (e : Exn) : Docker -> M unit := fun _ => raise e.

(** A container that starts and accepts every command without output. *)
Definition quiet : World -> string -> Outcome ProcessResult :=
  fun _ _ => Ret (mkResult "" "" 0).

(** ** Vocabulary of the further properties *)

(** The command line that [start] hands to [execute]. *)
Definition start_command_line (self : Docker) : string :=
  (if privilege self then "docker run -d --privileged --name " else "docker run -d --name ")
  ++ container_name self ++ " " ++ image self ++ " /bin/sleep " ++ Py.str (timeout self).

(** What a completed [stop] adds to the history. *)
Definition teardown_events (self : Docker) : list Event :=
  [Slept 2; Executed ("docker kill " ++ container_name self);
   Executed ("docker rm " ++ container_name self)].


(** [name[:-1]] *)
Definition without_last (name : string) : string := Py.take (length name - 1) name.

(** The command that [create_file] passes to [run]. *)
Definition create_command (path content : string) : string :=
  "echo " ++ DQUOTE ++ content ++ DQUOTE ++ " >> " ++ _get_working_directory path.

(** A container that cannot be created: every command ends with status 125. *)
Definition refusing : World -> string -> Outcome ProcessResult :=
  fun _ _ => Ret (mkResult "" "docker: Error response from daemon" 125).

(** A transport that loses the daemon when asked to kill a container. *)
Definition daemon_lost : Exn := mkExn "OSError" "Cannot connect to the Docker daemon" true.

Definition losing_daemon : World -> string -> Outcome ProcessResult :=
  fun _ command =>
    if Py.startswith command "docker kill" then Raise daemon_lost
    else Ret (mkResult "" "" 0).

(** A unit of work that runs one command and hands on its output. *)
Definition echo_work : Docker -> M string :=
  fun docker w => (Ret "done", (w ++ [Executed "work"])%list).

(** A container with the directory [~/d] that holds the directories [b/]
    and [c/]; the listing ends, as [ls] prints it, with a line feed. *)
Definition two_directories : World -> string -> Outcome ProcessResult :=
  fun _ command =>
    if String.eqb command (exec_command_line demo "ls -dm */" "~/d")
    then Ret (mkResult ("b/, c/" ++ LF ++ sentinel_line 0) "" 0)
    else if String.eqb command (exec_command_line demo "test -d ~/d/b/" "")
    then Ret (mkResult (sentinel_line 0) "" 0)
    else if String.eqb command (exec_command_line demo ("test -d ~/d/c/" ++ LF) "")
    then Ret (mkResult (sentinel_line 0) "" 0)
    else Ret (mkResult (sentinel_line 1) "" 0).

(** ** Vocabulary of the quoting of commands *)





(** * Properties *)

Example search_plain :
  Re.search ("abc--return-12--" ++ LF) = Some (Re.mkMatch 3 "--return-12--" "12").
Proof. reflexivity. Qed.

Example search_backslash_n :
  Re.search ("abc" ++ BACKSLASH_N ++ "--return-0--")
  = Some (Re.mkMatch 3 (BACKSLASH_N ++ "--return-0--") "0").
Proof. reflexivity. Qed.

Example search_not_at_tail : Re.search ("--return-12--x" ++ LF) = None.
Proof. reflexivity. Qed.

Example replace_all : Py.replace "a, b, c" ", " "+" = "a+b+c".
Proof. reflexivity. Qed.

Example split_three : Py.split "a, b, c" ", " = ["a"; "b"; "c"].
Proof. reflexivity. Qed.

Example split_empty : Py.split "" ", " = [""].
Proof. reflexivity. Qed.

(** ** Facts about the string operations *)

Module PyFacts.
Import Py.

Lemma app_nil_r (s : string) : s ++ "" = s.
Proof. induction s as [|c s IH]; simpl; [reflexivity | now rewrite IH]. Qed.

Lemma app_assoc (a b c : string) : (a ++ b) ++ c = a ++ b ++ c.
Proof. induction a as [|x a IH]; simpl; [reflexivity | now rewrite IH]. Qed.

Lemma length_app (a b : string) : length (a ++ b) = length a + length b.
Proof. induction a as [|x a IH]; simpl; [reflexivity | now rewrite IH]. Qed.

Lemma app_inv_head (a b c : string) : a ++ b = a ++ c -> b = c.
Proof. induction a as [|x a IH]; simpl; [easy | intros [= H]; auto]. Qed.

Lemma startswith_app (p r : string) : startswith (p ++ r) p = true.
Proof.
  induction p as [|c p IH]; simpl; [reflexivity |].
  now rewrite Ascii.eqb_refl.
Qed.

Lemma startswith_inv (s p : string) :
  startswith s p = true -> s = p ++ drop (length p) s.
Proof.
  revert s; induction p as [|c p IH]; intros s H; simpl in *; [reflexivity |].
  destruct s as [|b s]; [discriminate |].
  apply andb_true_iff in H as [Hc Hp].
  apply Ascii.eqb_eq in Hc; subst b.
  now rewrite <- (IH s Hp).
Qed.

Lemma startswith_length (s p : string) :
  startswith s p = true -> length p <= length s.
Proof.
  intros H. rewrite (startswith_inv _ _ H), length_app. lia.
Qed.

Lemma drop_app (p r : string) : drop (length p) (p ++ r) = r.
Proof. induction p as [|c p IH]; simpl; auto. Qed.

Lemma take_app (p r : string) : take (length p) (p ++ r) = p.
Proof. induction p as [|c p IH]; simpl; [reflexivity | now rewrite IH]. Qed.

Lemma take_drop (n : nat) (s : string) : take n s ++ drop n s = s.
Proof.
  revert s; induction n as [|n IH]; intros [|c s]; simpl; try reflexivity.
  now rewrite IH.
Qed.

Lemma length_drop (n : nat) (s : string) : length (drop n s) = length s - n.
Proof.
  revert s; induction n as [|n IH]; intros [|c s]; simpl; auto; lia.
Qed.

Lemma endswith_app (a p : string) : endswith (a ++ p) p = true.
Proof.
  unfold endswith. rewrite length_app.
  replace (length a + length p - length p) with (length a) by lia.
  rewrite drop_app, String.eqb_refl.
  apply andb_true_iff; split; [apply Nat.leb_le; lia | reflexivity].
Qed.

Lemma endswith_inv (s p : string) :
  endswith s p = true -> exists a, s = a ++ p.
Proof.
  unfold endswith. intros H.
  apply andb_true_iff in H as [_ H]. apply String.eqb_eq in H.
  exists (take (length s - length p) s).
  rewrite <- H at 2. symmetry. apply take_drop.
Qed.

Lemma take_all_but (a b : string) : take (length (a ++ b) - length b) (a ++ b) = a.
Proof.
  rewrite length_app.
  replace (length a + length b - length b) with (length a) by lia.
  apply take_app.
Qed.

(** Two ways of cutting one text: the shorter first part is a prefix of
    the longer one. *)
Lemma app_eq_app_le (a b x y : string) :
  a ++ x = b ++ y -> length a <= length b -> exists u, b = a ++ u /\ x = u ++ y.
Proof.
  revert b; induction a as [|c a IH]; intros b H Hlen.
  - exists b. split; [reflexivity | exact H].
  - destruct b as [|d b]; [simpl in Hlen; lia |].
    simpl in H. injection H as -> H.
    destruct (IH b H) as (u & -> & ->); [simpl in Hlen; lia |].
    now exists u.
Qed.

Lemma length_zero (s : string) : length s = 0 -> s = "".
Proof. destruct s; [reflexivity | discriminate]. Qed.

Lemma app_inv_tail (x y t : string) : x ++ t = y ++ t -> x = y.
Proof.
  intros H.
  assert (Hlen : length x = length y).
  { apply (f_equal length) in H. rewrite !length_app in H. lia. }
  destruct (app_eq_app_le x y t t H) as (u & -> & Ht); [lia |].
  rewrite length_app in Hlen.
  rewrite (length_zero u) by lia. symmetry. apply app_nil_r.
Qed.

Lemma app_inj_last (x y : string) (c d : ascii) :
  x ++ String c "" = y ++ String d "" -> x = y /\ c = d.
Proof.
  revert y; induction x as [|a x IH]; intros [|b y] H; simpl in H.
  - now injection H.
  - injection H as _ H. now destruct y.
  - injection H as _ H. now destruct x.
  - injection H as -> H. apply IH in H as [-> ->]. now split.
Qed.

Lemma int_str_of_N (n : N) : int (str_of_N n) = Z.of_N n.
Proof.
  unfold int, str_of_N. rewrite NilZero.usu.
  - now rewrite DecimalN.Unsigned.of_to.
  - destruct n as [|q]; simpl; [discriminate | apply DecimalPos.Unsigned.to_uint_nonnil].
Qed.

(** Passing over the characters of a replaced occurrence. *)
Lemma replace_scan_skip (old new a b : string) :
  replace_scan old new (a ++ b) (length a) = replace_scan old new b 0.
Proof. induction a as [|c a IH]; simpl; [now destruct b | exact IH]. Qed.

(** A text shorter than [old] holds no occurrence of it. *)
Lemma replace_scan_short (old new s : string) :
  length s < length old -> replace_scan old new s 0 = s.
Proof.
  induction s as [|c s IH]; intros Hlen; simpl; [reflexivity |].
  destruct (startswith (String c s) old) eqn:E.
  - apply startswith_length in E. lia.
  - rewrite IH; [reflexivity | simpl in Hlen; lia].
Qed.

(** One occurrence, the first of the text, followed by less than an
    occurrence: [replace] rewrites exactly that one. *)
Lemma replace_scan_first (old new pre post : string) :
  old <> "" ->
  (forall k, k < length pre -> startswith (drop k (pre ++ old ++ post)) old = false) ->
  length post < length old ->
  replace_scan old new (pre ++ old ++ post) 0 = pre ++ new ++ post.
Proof.
  intros Hne Hfirst Hpost.
  induction pre as [|c pre IH].
  - simpl. destruct old as [|o old]; [congruence |].
    change (String o old ++ post) with (String o (old ++ post)).
    cbn [replace_scan].
    change (String o (old ++ post)) with (String o old ++ post).
    rewrite startswith_app.
    replace (length (String o old) - 1) with (length old) by (simpl; lia).
    rewrite replace_scan_skip, replace_scan_short; [reflexivity | exact Hpost].
  - assert (H0 : startswith (String c (pre ++ old ++ post)) old = false)
      by (apply (Hfirst 0); simpl; lia).
    change (String c pre ++ old ++ post) with (String c (pre ++ old ++ post)).
    cbn [replace_scan]. rewrite H0.
    change (String c pre ++ new ++ post) with (String c (pre ++ new ++ post)).
    f_equal. apply IH.
    intros k Hk. apply (Hfirst (S k)). simpl; lia.
Qed.

End PyFacts.

(** ** Facts about the pattern *)

Module ReFacts.
Import Py PyFacts Re.

Lemma digit_not_dash (c : ascii) : is_digit c = true -> Ascii.eqb "-" c = false.
Proof.
  destruct c as [[|] [|] [|] [|] [|] [|] [|] [|]]; cbv; congruence.
Qed.

Section Digits.
Context {R : Type}.

(** After a run of digits that is followed by no digit, a continuation
    that refuses a text beginning with a digit is entered with the
    whole run: giving digits back never helps. *)
Lemma digits1_run (ds r : string) :
  forall k : string -> string -> option R,
    all_digits ds = true -> ds <> "" -> starts_with_digit r = false ->
    (forall ds' r', starts_with_digit r' = true -> k ds' r' = None) ->
    digits1 k (ds ++ r) = k ds r.
Proof.
  induction ds as [|c ds IH]; intros k Hd Hne Hr Hk; [congruence |].
  simpl in Hd. apply andb_true_iff in Hd as [Hc Hds].
  change (String c ds ++ r) with (String c (ds ++ r)).
  cbn [digits1]. rewrite Hc.
  destruct ds as [|c' ds].
  - simpl. assert (E : digits1 (fun ds0 r0 => k (String c ds0) r0) r = None).
    { destruct r as [|x r]; [reflexivity |]. simpl in *. now rewrite Hr. }
    now rewrite E.
  - rewrite (IH (fun ds0 r0 => k (String c ds0) r0)); auto; [| congruence].
    destruct (k (String c (String c' ds)) r) eqn:E; [reflexivity |].
    apply Hk. simpl in *. now apply andb_true_iff in Hds as [-> _].
Qed.

(** Whatever [digits1] hands on is a non-empty run of digits at the
    start of the text. *)
Lemma digits1_inv (s : string) :
  forall (k : string -> string -> option R) (x : R),
    digits1 k s = Some x ->
    exists ds r, all_digits ds = true /\ ds <> "" /\ s = ds ++ r /\ k ds r = Some x.
Proof.
  induction s as [|c s IH]; intros k x H; [discriminate |].
  cbn [digits1] in H. destruct (is_digit c) eqn:Hc; [| discriminate].
  destruct (digits1 (fun ds r => k (String c ds) r) s) eqn:E.
  - injection H as ->.
    apply IH in E as (ds & r & Hd & _ & -> & Hk).
    exists (String c ds), r. simpl. rewrite Hc, Hd. repeat split; congruence.
  - exists (String c ""), s. simpl. rewrite Hc. repeat split; congruence.
Qed.
End Digits.

Lemma at_dollar_inv (r : string) : at_dollar r = true -> r = "" \/ r = LF.
Proof.
  unfold at_dollar. intros H. apply orb_true_iff in H as [H | H];
    apply String.eqb_eq in H; auto.
Qed.

(** What a match of the part after the optional group looks like. *)
Lemma sentinel_tail_inv (whole s g0 g1 : string) :
  sentinel_tail whole s = Some (g0, g1) ->
  exists post,
    (post = "" \/ post = LF) /\ all_digits g1 = true /\ g1 <> "" /\
    s = "--return-" ++ g1 ++ "--" ++ post /\
    g0 = take (length whole - length post) whole.
Proof.
  unfold sentinel_tail, lit. intros H.
  destruct (startswith s "--return-") eqn:E1; [| discriminate].
  apply startswith_inv in E1.
  apply digits1_inv in H as (ds & r & Hd & Hne & Hs & H).
  destruct (startswith r "--") eqn:E2; [| discriminate].
  apply startswith_inv in E2.
  destruct (at_dollar (drop (length "--") r)) eqn:E3; [| discriminate].
  injection H as <- <-.
  exists (drop (length "--") r). repeat split; auto.
  - now apply at_dollar_inv.
  - rewrite E1, Hs. f_equal. f_equal. exact E2.
Qed.

(** The part after the optional group matches a sentinel that stands at
    the end of the text, or just before its final line feed. *)
Lemma sentinel_tail_sentinel (whole ds post : string) :
  all_digits ds = true -> ds <> "" -> post = "" \/ post = LF ->
  sentinel_tail whole ("--return-" ++ ds ++ "--" ++ post)
  = Some (take (length whole - length post) whole, ds).
Proof.
  intros Hd Hne Hpost. unfold sentinel_tail, lit.
  rewrite startswith_app, drop_app, digits1_run; auto.
  - rewrite startswith_app, drop_app.
    now destruct Hpost as [-> | ->].
  - intros ds' [|c r'] Hr; [discriminate |].
    simpl in Hr. cbn [startswith]. now rewrite (digit_not_dash c Hr).
Qed.

(** What a match looks like: the optional backslash-n, the markers
    around a non-empty run of digits, and then the end of the text or its
    final line feed. *)
Lemma match_here_inv (s g0 g1 : string) :
  match_here s = Some (g0, g1) ->
  exists pre post,
    (pre = "" \/ pre = BACKSLASH_N) /\ (post = "" \/ post = LF) /\
    all_digits g1 = true /\ g1 <> "" /\
    g0 = pre ++ "--return-" ++ g1 ++ "--" /\ s = g0 ++ post.
Proof.
  unfold match_here, opt. intros H.
  destruct (lit BACKSLASH_N (sentinel_tail s) s) as [x|] eqn:E.
  - injection H as ->. unfold lit in E.
    destruct (startswith s BACKSLASH_N) eqn:E1; [| discriminate].
    apply startswith_inv in E1.
    apply sentinel_tail_inv in E as (post & Hpost & Hd & Hne & Ht & Hg).
    exists BACKSLASH_N, post.
    assert (Hs : s = (BACKSLASH_N ++ "--return-" ++ g1 ++ "--") ++ post).
    { rewrite E1, Ht. now rewrite !app_assoc. }
    rewrite Hs in Hg. rewrite take_all_but in Hg. subst g0.
    repeat split; auto.
  - apply sentinel_tail_inv in H as (post & Hpost & Hd & Hne & Ht & Hg).
    exists "", post.
    assert (Hs : s = ("--return-" ++ g1 ++ "--") ++ post).
    { rewrite Ht. now rewrite !app_assoc. }
    rewrite Hs in Hg. rewrite take_all_but in Hg. subst g0.
    repeat split; auto.
Qed.

(** The pattern matches a sentinel that ends the text, with or without
    the backslash-n before it and the line feed after it. *)
Lemma match_here_sentinel (pre ds post : string) :
  pre = "" \/ pre = BACKSLASH_N -> all_digits ds = true -> ds <> "" ->
  post = "" \/ post = LF ->
  match_here (pre ++ "--return-" ++ ds ++ "--" ++ post)
  = Some (pre ++ "--return-" ++ ds ++ "--", ds).
Proof.
  intros Hpre Hd Hne Hpost. unfold match_here, opt.
  assert (Hcut : forall a, a ++ "--return-" ++ ds ++ "--" ++ post
                           = (a ++ "--return-" ++ ds ++ "--") ++ post).
  { intros a. now rewrite !app_assoc. }
  destruct Hpre as [-> | ->].
  - replace (lit BACKSLASH_N (sentinel_tail ("" ++ "--return-" ++ ds ++ "--" ++ post))
                 ("" ++ "--return-" ++ ds ++ "--" ++ post)) with (@None (string * string))
      by reflexivity.
    change ("" ++ "--return-" ++ ds ++ "--" ++ post)
      with ("--return-" ++ ds ++ "--" ++ post) at 2.
    rewrite sentinel_tail_sentinel by assumption.
    now rewrite Hcut, take_all_but.
  - unfold lit at 1. rewrite startswith_app, drop_app.
    rewrite sentinel_tail_sentinel by assumption.
    now rewrite Hcut, take_all_but.
Qed.

Lemma search_from_inv (s : string) :
  forall pos m,
    search_from pos s = Some m ->
    exists a b,
      s = a ++ b /\ m_start m = pos + length a /\
      match_here b = Some (group0 m, group1 m).
Proof.
  induction s as [|c s IH]; intros pos m H; cbn [search_from] in H.
  - destruct (match_here "") as [[g0 g1]|] eqn:E; [| discriminate].
    injection H as <-. exists "", "". simpl. repeat split; auto.
  - destruct (match_here (String c s)) as [[g0 g1]|] eqn:E.
    + injection H as <-. exists "", (String c s). simpl. repeat split; auto.
    + apply IH in H as (a & b & -> & Hpos & Hm).
      exists (String c a), b. simpl. repeat split; auto. lia.
Qed.

(** A position where the pattern matches makes [search] succeed (at that
    position or at an earlier one). *)
Lemma search_from_some (a b : string) (x : string * string) :
  match_here b = Some x -> forall pos, exists m, search_from pos (a ++ b) = Some m.
Proof.
  intros Hb. induction a as [|c a IH]; intros pos.
  - simpl. destruct b as [|c b]; cbn [search_from]; rewrite Hb;
      destruct x as [g0 g1]; eauto.
  - change (String c a ++ b) with (String c (a ++ b)). cbn [search_from].
    destruct (match_here (String c (a ++ b))) as [[g0 g1]|]; eauto.
Qed.

Lemma search_from_none (s : string) :
  forall pos, search_from pos s = None -> forall k, match_here (drop k s) = None.
Proof.
  induction s as [|c s IH]; intros pos H k; cbn [search_from] in H.
  - destruct (match_here "") as [[g0 g1]|] eqn:E; [discriminate |].
    now destruct k.
  - destruct (match_here (String c s)) as [[g0 g1]|] eqn:E; [discriminate |].
    destruct k as [|k]; [exact E | simpl; eapply IH; eauto].
Qed.

Lemma all_digits_app (a b : string) :
  all_digits (a ++ b) = all_digits a && all_digits b.
Proof.
  induction a as [|c a IH]; simpl; [reflexivity |].
  now rewrite IH, andb_assoc.
Qed.

Lemma all_digits_of_uint (d : Decimal.uint) :
  all_digits (NilEmpty.string_of_uint d) = true.
Proof. induction d; simpl; auto. Qed.

(** The decimal text of a number is a non-empty run of digits. *)
Lemma str_of_N_digits (n : N) :
  all_digits (str_of_N n) = true /\ str_of_N n <> "".
Proof.
  unfold str_of_N, NilZero.string_of_uint.
  destruct (N.to_uint n) eqn:E;
    (split; [try reflexivity; rewrite <- E; apply all_digits_of_uint
            | simpl; discriminate]).
Qed.

(** The digits between a dash and the end are determined by the text. *)
Lemma digits_after_dash_unique (a b g d : string) :
  all_digits g = true -> all_digits d = true ->
  a ++ "-" ++ g = b ++ "-" ++ d -> g = d.
Proof.
  assert (Hhalf : forall a b g d,
             all_digits g = true -> length a <= length b ->
             a ++ "-" ++ g = b ++ "-" ++ d -> g = d).
  { clear. intros a b g d Hg Hlen H.
    destruct (app_eq_app_le _ _ _ _ H Hlen) as (u & -> & Hu).
    destruct u as [|c u]; simpl in Hu; injection Hu; [auto |].
    intros -> _. rewrite all_digits_app in Hg.
    apply andb_true_iff in Hg as [_ Hg]. discriminate. }
  intros Hg Hd H.
  destruct (Nat.le_ge_cases (length a) (length b)) as [Hlen | Hlen].
  - eapply Hhalf; eauto.
  - symmetry. eapply Hhalf; eauto.
Qed.

(** A match found in an output that ends with a sentinel line is that
    sentinel, with or without a backslash-n taken from the output before it. *)
Lemma search_shape (body ds : string) (m : Match) :
  all_digits ds = true -> ds <> "" ->
  search (body ++ "--return-" ++ ds ++ "--" ++ LF) = Some m ->
  exists a pre,
    (pre = "" \/ pre = BACKSLASH_N) /\ body = a ++ pre /\ m_start m = length a /\
    group0 m = pre ++ "--return-" ++ ds ++ "--" /\ group1 m = ds.
Proof.
  intros Hd Hne Hm. unfold search in Hm.
  apply search_from_inv in Hm as (a & b & Hs & Hpos & Hb).
  apply match_here_inv in Hb as (pre & post & Hpre & Hpost & Hg & _ & Hg0 & ->).
  rewrite Hg0 in Hs.
  destruct Hpost as [-> | ->].
  - exfalso. rewrite app_nil_r in Hs.
    assert (H : (body ++ "--return-" ++ ds ++ "--") ++ String "010"%char ""
                = (a ++ pre ++ "--return-" ++ group1 m ++ "-") ++ String "-"%char "").
    { rewrite !app_assoc. exact Hs. }
    apply app_inj_last in H as [_ H]. discriminate.
  - assert (H : (body ++ "--return" ++ "-" ++ ds) ++ "--" ++ LF
                = (a ++ pre ++ "--return" ++ "-" ++ group1 m) ++ "--" ++ LF).
    { rewrite !app_assoc. rewrite !app_assoc in Hs. exact Hs. }
    apply app_inv_tail in H.
    assert (Hds : group1 m = ds).
    { rewrite <- (app_assoc body), <- (app_assoc pre), <- (app_assoc a) in H.
      symmetry. eapply digits_after_dash_unique; eauto. }
    rewrite Hds in *.
    assert (H' : body ++ ("--return" ++ "-" ++ ds) = (a ++ pre) ++ ("--return" ++ "-" ++ ds)).
    { rewrite H. now rewrite !app_assoc. }
    apply app_inv_tail in H'.
    exists a, pre. repeat split; auto.
Qed.

(** A sentinel at the tail of the output is found, and the digits read
    are those of that sentinel, whatever the output before it. *)
Lemma search_recovers (body ds : string) :
  all_digits ds = true -> ds <> "" ->
  exists m, search (body ++ "--return-" ++ ds ++ "--" ++ LF) = Some m /\ group1 m = ds.
Proof.
  intros Hd Hne.
  destruct (search_from_some body ("--return-" ++ ds ++ "--" ++ LF)
                             ("" ++ "--return-" ++ ds ++ "--", ds)) with (pos := 0)
    as [m Hm].
  { apply (match_here_sentinel "" ds LF); auto. }
  exists m. split; [exact Hm |].
  now destruct (search_shape body ds m Hd Hne Hm) as (a & pre & _ & _ & _ & _ & H).
Qed.

(** The same for the text of the sentinel alone: the match is at the
    start of the output. *)
Lemma search_sentinel_line (ds : string) :
  all_digits ds = true -> ds <> "" ->
  search ("--return-" ++ ds ++ "--" ++ LF)
  = Some (mkMatch 0 ("--return-" ++ ds ++ "--") ds).
Proof.
  intros Hd Hne. unfold search.
  pose proof (match_here_sentinel "" ds LF (or_introl eq_refl) Hd Hne
                                  (or_intror eq_refl)) as H.
  change ("" ++ "--return-" ++ ds ++ "--" ++ LF)
    with ("--return-" ++ ds ++ "--" ++ LF) in H.
  change ("" ++ "--return-" ++ ds ++ "--") with ("--return-" ++ ds ++ "--") in H.
  change ("--return-" ++ ds ++ "--" ++ LF)
    with (String "-" ("-return-" ++ ds ++ "--" ++ LF)) at 1.
  cbn [search_from].
  change (String "-" ("-return-" ++ ds ++ "--" ++ LF))
    with ("--return-" ++ ds ++ "--" ++ LF).
  now rewrite H.
Qed.

End ReFacts.

(** ** The path resolver *)

Section Resolver.
Import Py PyFacts.

Lemma resolver_absolute (path : string) :
  (startswith path "/" || startswith path "~/")%bool = true ->
  _get_working_directory path = path.
Proof. unfold _get_working_directory. now intros ->. Qed.

Lemma resolver_relative (path : string) :
  (startswith path "/" || startswith path "~/")%bool = false ->
  _get_working_directory path = "~/" ++ path.
Proof. unfold _get_working_directory. now intros ->. Qed.

(** C5: the resolver returns the path unchanged exactly when the path
    begins with "/" or with "~/", and otherwise returns "~/" followed by
    the path; it is a total function of the path alone. *)
Theorem resolver_unchanged_iff_anchored (path : string) :
  (_get_working_directory path = path
   <-> startswith path "/" = true \/ startswith path "~/" = true)
  /\ (~ (startswith path "/" = true \/ startswith path "~/" = true)
      -> _get_working_directory path = "~/" ++ path).
Proof.
  destruct (startswith path "/" || startswith path "~/")%bool eqn:E.
  - rewrite (resolver_absolute _ E). apply orb_true_iff in E. tauto.
  - rewrite (resolver_relative _ E). apply orb_false_iff in E as [E1 E2].
    split; [split |]; auto.
    + intros H. apply (f_equal length) in H. simpl in H. lia.
    + intros [H | H]; congruence.
Qed.

Lemma resolver_unchanged_iff_anchored_witness :
  _get_working_directory "src/docker" = "~/" ++ "src/docker".
Proof.
  apply (resolver_unchanged_iff_anchored "src/docker").
  intros [H | H]; discriminate H.
Defined.

(** C10: the result of the resolver always begins with "/" or with
    "~/", so resolving a resolved path changes nothing. *)
Theorem resolver_idempotent (path : string) :
  (startswith (_get_working_directory path) "/" = true
   \/ startswith (_get_working_directory path) "~/" = true)
  /\ _get_working_directory (_get_working_directory path)
     = _get_working_directory path.
Proof.
  assert (H : (startswith (_get_working_directory path) "/"
               || startswith (_get_working_directory path) "~/")%bool = true).
  { destruct (startswith path "/" || startswith path "~/")%bool eqn:E.
    - now rewrite (resolver_absolute _ E).
    - rewrite (resolver_relative _ E). apply orb_true_iff. right.
      apply startswith_app. }
  split; [now apply orb_true_iff | now apply resolver_absolute].
Qed.

End Resolver.

(** ** Recovering the status *)

Section Recovery.
Import Py PyFacts Re ReFacts.

Lemma recover_found (raw : ProcessResult) (m : Match) :
  search (out raw) = Some m ->
  return_code (recover_status raw) = int (group1 m)
  /\ out (recover_status raw) = drop_final_line_feed (replace (out raw) (group0 m) "")
  /\ err (recover_status raw) = err raw.
Proof.
  unfold recover_status, drop_final_line_feed. intros ->. cbn [set_out set_return_code out].
  destruct (endswith (replace (out raw) (group0 m) "") LF); auto.
Qed.

Lemma recover_not_found (raw : ProcessResult) :
  search (out raw) = None -> recover_status raw = raw.
Proof. unfold recover_status. now intros ->. Qed.

Lemma replace_nonempty (s old new : string) :
  old <> "" -> replace s old new = replace_scan old new s 0.
Proof. destruct old; [congruence | reflexivity]. Qed.

(** The sentinel alone on the output: the status is read and nothing is
    left of the output. *)
Lemma recover_sentinel_line (raw : ProcessResult) (ds : string) :
  all_digits ds = true -> ds <> "" ->
  out raw = "--return-" ++ ds ++ "--" ++ LF ->
  return_code (recover_status raw) = int ds /\ out (recover_status raw) = "".
Proof.
  intros Hd Hne Hout.
  pose proof (search_sentinel_line ds Hd Hne) as Hs. rewrite <- Hout in Hs.
  destruct (recover_found raw _ Hs) as (Hc & Ho & _).
  split; [exact Hc |]. rewrite Ho, Hout. cbn [group0].
  rewrite replace_nonempty by discriminate.
  replace ("--return-" ++ ds ++ "--" ++ LF) with ("" ++ ("--return-" ++ ds ++ "--") ++ LF)
    by (simpl; now rewrite !app_assoc).
  rewrite replace_scan_first.
  - reflexivity.
  - discriminate.
  - intros k Hk. simpl in Hk. lia.
  - simpl. lia.
Qed.

End Recovery.

(** ** [run] *)

Section Run.
Import Py PyFacts Re ReFacts.

Variable transport : World -> string -> Outcome ProcessResult.

(** When the transport delivers a result, [run] hands on that result
    with the status recovered, after one call of [execute]. *)
Lemma run_returns (self : Docker) (command working_directory : string)
      (w : World) (raw : ProcessResult) :
  transport w (exec_command_line self command working_directory) = Ret raw ->
  run transport self command working_directory w
  = (Ret (recover_status raw),
     (w ++ [Executed (exec_command_line self command working_directory)])%list).
Proof. unfold run, bind, execute, ret. now intros ->. Qed.

(** C1: for every status N from 0 to 255, [run] on "exit N" gives a
    result with status N and an output without any sentinel; the container
    reports the status on the sentinel line, or, the shell having left at
    [exit] before the emission, as the status of the transport with no
    output. *)
Theorem run_exit_recovers_status
        (self : Docker) (working_directory : string) (w : World)
        (N : Z) (raw : ProcessResult) :
  (0 <= N <= 255)%Z ->
  transport w (exec_command_line self ("exit " ++ str N) working_directory) = Ret raw ->
  out raw = sentinel_line N \/ (out raw = "" /\ return_code raw = N) ->
  exists result w',
    run transport self ("exit " ++ str N) working_directory w = (Ret result, w')
    /\ return_code result = N
    /\ out result = ""
    /\ has_sentinel (out result) = false.
Proof.
  intros HN Ht Hraw.
  rewrite (run_returns _ _ _ _ _ Ht).
  eexists _, _. split; [reflexivity |].
  assert (H : return_code (recover_status raw) = N /\ out (recover_status raw) = "").
  { destruct Hraw as [Hout | [Hout Hcode]].
    - assert (Hstr : str N = str_of_N (Z.to_N N)).
      { destruct N as [|q|q]; [reflexivity | reflexivity | lia]. }
      unfold sentinel_line in Hout. rewrite Hstr in Hout.
      destruct (str_of_N_digits (Z.to_N N)) as [Hd Hne].
      destruct (recover_sentinel_line raw _ Hd Hne Hout) as [Hc Ho].
      split; [| exact Ho]. rewrite Hc, int_str_of_N. lia.
    - rewrite recover_not_found; [now split |]. now rewrite Hout. }
  destruct H as [Hc Ho]. rewrite Ho. repeat split; auto.
Qed.

(** C4: when the pattern is not found at the tail of the output, [run]
    returns the result of the transport as it is: the same status, the
    same output. *)
Theorem run_without_sentinel_unchanged
        (self : Docker) (command working_directory : string) (w : World)
        (raw : ProcessResult) :
  transport w (exec_command_line self command working_directory) = Ret raw ->
  search (out raw) = None ->
  exists result w',
    run transport self command working_directory w = (Ret result, w')
    /\ return_code result = return_code raw
    /\ out result = out raw
    /\ result = raw.
Proof.
  intros Ht Hs. rewrite (run_returns _ _ _ _ _ Ht), (recover_not_found _ Hs).
  eexists _, _. repeat split.
Qed.

(** When the matched text occurs nowhere before the match, line 81
    removes exactly the one trailing occurrence. *)
Lemma run_removes_lone_match
        (self : Docker) (command working_directory : string) (w : World)
        (raw : ProcessResult) (m : Match) :
  transport w (exec_command_line self command working_directory) = Ret raw ->
  search (out raw) = Some m ->
  exists result w',
    run transport self command working_directory w = (Ret result, w')
    /\ ((forall k, k < m_start m -> startswith (drop k (out raw)) (group0 m) = false)
        -> out result = drop_final_line_feed (without_match (out raw) m)).
Proof.
  intros Ht Hs. rewrite (run_returns _ _ _ _ _ Ht).
  eexists _, _. split; [reflexivity |].
  destruct (recover_found raw m Hs) as (_ & Ho & _).
  intros Hfirst. rewrite Ho. f_equal.
  unfold search in Hs.
  apply search_from_inv in Hs as (a & b & Hraw & Hpos & Hb).
  apply match_here_inv in Hb as (pre & post & _ & Hpost & _ & _ & Hg0 & ->).
  simpl in Hpos. rewrite Hpos in *. rewrite Hraw in *.
  assert (Hne : group0 m <> "").
  { rewrite Hg0. destruct pre; discriminate. }
  assert (Hlen : length post < length (group0 m)).
  { rewrite Hg0, !length_app.
    destruct Hpost as [-> | ->]; simpl; lia. }
  rewrite (replace_nonempty _ _ _ Hne), (replace_scan_first _ _ _ _ Hne Hfirst Hlen).
  unfold without_match. rewrite Hpos, take_app.
  rewrite <- (length_app a (group0 m)), <- (app_assoc a (group0 m) post), drop_app.
  reflexivity.
Qed.

(** C3, as amended: when the pattern is found, [run] drops one final line
    feed from what is left after the sentinel text is stripped, and nothing
    when what is left does not end in a line feed; and the output of a
    command, followed in the raw output by the sentinel line, is returned
    as the command wrote it, without losing its last character, provided
    it does not end in backslash-n and no occurrence of the sentinel text
    begins at a position inside it when the raw output is read as a whole
    (an occurrence that begins in the output of the command and ends in
    the sentinel line counts). *)
Theorem run_keeps_last_character
        (self : Docker) (command working_directory : string) (w : World)
        (raw : ProcessResult) (m : Match) :
  transport w (exec_command_line self command working_directory) = Ret raw ->
  search (out raw) = Some m ->
  exists result w',
    run transport self command working_directory w = (Ret result, w')
    /\ (forall kept, replace (out raw) (group0 m) "" = kept ++ LF -> out result = kept)
    /\ ((forall kept, replace (out raw) (group0 m) "" <> kept ++ LF)
        -> out result = replace (out raw) (group0 m) "")
    /\ (forall body ds,
           out raw = body ++ "--return-" ++ ds ++ "--" ++ LF ->
           all_digits ds = true -> ds <> "" ->
           endswith body BACKSLASH_N = false ->
           (forall k, k < length body ->
                      startswith (drop k (out raw)) ("--return-" ++ ds ++ "--") = false) ->
           out result = body).
Proof.
  intros Ht Hs. rewrite (run_returns _ _ _ _ _ Ht).
  eexists _, _. split; [reflexivity |].
  destruct (recover_found raw m Hs) as (_ & Ho & _).
  rewrite Ho. unfold drop_final_line_feed. repeat split.
  - intros kept ->. rewrite endswith_app, length_app. simpl.
    replace (length kept + 1 - 1) with (length kept) by lia. apply take_app.
  - intros Hno. destruct (endswith (replace (out raw) (group0 m) "") LF) eqn:E;
      [| reflexivity].
    apply endswith_inv in E as (kept & E). now destruct (Hno kept).
  - intros body ds Hraw Hd Hne Hbody Hfirst.
    rewrite Hraw in Hs.
    destruct (search_shape body ds m Hd Hne Hs) as (a & pre & Hpre & Hb & _ & Hg0 & _).
    destruct Hpre as [-> | ->].
    2:{ rewrite Hb, endswith_app in Hbody. discriminate. }
    simpl in Hg0. rewrite Hg0, Hraw. rewrite Hraw in Hfirst.
    rewrite replace_nonempty by discriminate.
    replace (body ++ "--return-" ++ ds ++ "--" ++ LF)
      with (body ++ ("--return-" ++ ds ++ "--") ++ LF) in *
      by (now rewrite !app_assoc).
    rewrite replace_scan_first; auto; [| discriminate | rewrite !length_app; simpl; lia].
    change ("" ++ LF) with LF.
    rewrite endswith_app, length_app. simpl.
    replace (length body + 1 - 1) with (length body) by lia. apply take_app.
Qed.

Lemma replace_quotes (command : string) :
  replace command SQUOTE DQUOTE = map_string requote command.
Proof.
  unfold replace, SQUOTE, DQUOTE.
  induction command as [|c command IH]; [reflexivity |].
  cbn [replace_scan startswith map_string length Nat.sub].
  unfold requote at 1. rewrite Ascii.eqb_sym, andb_true_r.
  destruct (Ascii.eqb c "'"); simpl; now rewrite IH.
Qed.

Lemma requoted_has_no_quote (command : string) :
  contains_char "'" (map_string requote command) = false.
Proof.
  induction command as [|c command IH]; [reflexivity |].
  cbn [map_string contains_char]. rewrite IH, orb_false_r.
  unfold requote. destruct (Ascii.eqb c "'") eqn:E; [reflexivity | exact E].
Qed.

Lemma contains_char_app (c : ascii) (a b : string) :
  contains_char c (a ++ b) = contains_char c a || contains_char c b.
Proof.
  induction a as [|x a IH]; simpl; [reflexivity |].
  now rewrite IH, orb_assoc.
Qed.






Lemma read_file_returns (self : Docker) (path : string) (w : World) (raw : ProcessResult) :
  transport w (exec_command_line self ("cat " ++ _get_working_directory path) "") = Ret raw ->
  read_file transport self path w
  = (Ret (if succeeded (recover_status raw) then Some (out (recover_status raw)) else None),
     (w ++ [Executed (exec_command_line self ("cat " ++ _get_working_directory path) "")])%list).
Proof.
  intros Ht. unfold read_file, bind. rewrite (run_returns _ _ _ _ _ Ht).
  now destruct (succeeded (recover_status raw)).
Qed.

(** C7: whenever the transport delivers the result of the [cat] command,
    [read_file] returns and does not raise: the output of the command
    when the command succeeded, and [None] when it did not; a [cat] that
    ends with a status other than 0, as on a path that does not exist,
    gives [None]. *)
Theorem read_file_text_or_absent
        (self : Docker) (path : string) (w : World) (raw : ProcessResult) :
  transport w (exec_command_line self ("cat " ++ _get_working_directory path) "") = Ret raw ->
  exists answer w',
    read_file transport self path w = (Ret answer, w')
    /\ run transport self ("cat " ++ _get_working_directory path) "" w
       = (Ret (recover_status raw), w')
    /\ (succeeded (recover_status raw) = true -> answer = Some (out (recover_status raw)))
    /\ (succeeded (recover_status raw) = false -> answer = None)
    /\ (forall body n,
           out raw = body ++ sentinel_line (Zpos n) -> answer = None).
Proof.
  intros Ht. rewrite (read_file_returns _ _ _ _ Ht), (run_returns _ _ _ _ _ Ht).
  eexists _, _. split; [reflexivity |]. split; [reflexivity |].
  split; [now intros -> |]. split; [now intros -> |].
  intros body n Hout. unfold sentinel_line in Hout.
  change (str (Zpos n)) with (str_of_N (Npos n)) in Hout.
  destruct (str_of_N_digits (Npos n)) as [Hd Hne].
  destruct (search_recovers body _ Hd Hne) as (m & Hm & Hg).
  rewrite <- Hout in Hm.
  destruct (recover_found raw m Hm) as (Hc & _).
  unfold succeeded. now rewrite Hc, Hg, int_str_of_N.
Qed.

(** The loop of [list_files] keeps, in their order, the entries that pass
    the file check and fail the directory check. *)
Lemma list_files_loop_filters (self : Docker) (p : string) (isf isd : string -> bool)
      (entries : list string) :
  (forall w0 fp, In fp entries ->
                 exists w1, file_exist transport self (os_path_join p fp) w0
                            = (Ret (isf fp), w1)) ->
  (forall w0 fp, In fp entries -> isf fp = true ->
                 exists w1, directory_exist transport self (os_path_join p fp) w0
                            = (Ret (isd fp), w1)) ->
  forall result w,
  exists w',
    list_files_loop transport self p entries result w
    = (Ret (result ++ filter (fun fp => isf fp && negb (isd fp)) entries)%list, w').
Proof.
  induction entries as [|fp entries IH]; intros Hf Hd result w.
  - exists w. simpl. now rewrite List.app_nil_r.
  - cbn [list_files_loop filter]. unfold bind at 1.
    destruct (Hf w fp (or_introl eq_refl)) as [w1 ->].
    assert (Hf' : forall w0 fp0, In fp0 entries ->
                    exists w2, file_exist transport self (os_path_join p fp0) w0
                               = (Ret (isf fp0), w2))
      by (intros; apply Hf; now right).
    assert (Hd' : forall w0 fp0, In fp0 entries -> isf fp0 = true ->
                    exists w2, directory_exist transport self (os_path_join p fp0) w0
                               = (Ret (isd fp0), w2))
      by (intros; apply Hd; [now right | assumption]).
    destruct (isf fp) eqn:Ef; cbn [andb].
    + unfold bind at 1.
      destruct (Hd w1 fp (or_introl eq_refl) Ef) as [w2 ->].
      destruct (isd fp); cbn [negb].
      * apply IH; assumption.
      * destruct (IH Hf' Hd' (result ++ [fp])%list w2) as [w' ->].
        exists w'. now rewrite <- List.app_assoc.
    + apply IH; assumption.
Qed.

(** C8: [list_files] returns the entries of the listing, in the order of
    the listing, that pass the file check and fail the directory check on
    the entry joined to the resolved path: an entry is in the result
    exactly when it is a candidate with these two verdicts. *)
Theorem list_files_keeps_checked_entries
        (self : Docker) (path : string) (w : World) (listing : ProcessResult)
        (isf isd : string -> bool) :
  let p := _get_working_directory path in
  let candidates := split (out (recover_status listing)) ", " in
  transport w (exec_command_line self ("ls -m " ++ p) "") = Ret listing ->
  (forall w0 fp, In fp candidates ->
                 exists w1, file_exist transport self (os_path_join p fp) w0
                            = (Ret (isf fp), w1)) ->
  (forall w0 fp, In fp candidates -> isf fp = true ->
                 exists w1, directory_exist transport self (os_path_join p fp) w0
                            = (Ret (isd fp), w1)) ->
  exists names w',
    list_files transport self path w = (Ret names, w')
    /\ names = filter (fun fp => isf fp && negb (isd fp)) candidates
    /\ (forall fp, In fp names <-> In fp candidates /\ isf fp = true /\ isd fp = false).
Proof.
  intros p candidates Ht Hf Hd.
  unfold list_files, bind. fold p. rewrite (run_returns _ _ _ _ _ Ht). fold candidates.
  destruct (list_files_loop_filters self p isf isd candidates Hf Hd []
              (w ++ [Executed (exec_command_line self ("ls -m " ++ p) "")])%list)
    as [w' ->].
  eexists _, w'. split; [reflexivity |]. split; [reflexivity |].
  intros fp. simpl. rewrite filter_In, andb_true_iff, negb_true_iff. tauto.
Qed.

(** What a completed [stop] has done: one pause, one kill, one removal. *)
Lemma stop_inv (self d : Docker) (w w' : World) :
  stop transport self w = (Ret d, w') ->
  d = self
  /\ w' = (w ++ [Slept 2; Executed ("docker kill " ++ container_name self);
                 Executed ("docker rm " ++ container_name self)])%list.
Proof.
  unfold stop, bind, sleep, execute, ret.
  destruct (transport (w ++ [Slept 2])%list ("docker kill " ++ container_name self));
    [| discriminate].
  destruct (transport ((w ++ [Slept 2]) ++ [Executed ("docker kill " ++ container_name self)])%list
                      ("docker rm " ++ container_name self)); [| discriminate].
  intros [= <- <-]. split; [reflexivity |]. now rewrite <- !List.app_assoc.
Qed.

(** Over a transport that never raises, [stop] completes, whatever the
    commands report. *)
Lemma stop_completes (self : Docker) (w : World) :
  (forall w0 command, exists r, transport w0 command = Ret r) ->
  exists w', stop transport self w = (Ret self, w').
Proof.
  intros Htotal. unfold stop, bind, sleep, execute, ret.
  destruct (Htotal (w ++ [Slept 2])%list ("docker kill " ++ container_name self)) as [r1 ->].
  destruct (Htotal ((w ++ [Slept 2]) ++ [Executed ("docker kill " ++ container_name self)])%list
                   ("docker rm " ++ container_name self)) as [r2 ->].
  eauto.
Qed.

(** C9: entering the scope is [start]; when the unit of work raises and
    the teardown completes, [stop] has run exactly once, after the work,
    and the statement raises the failure of the work. *)
Theorem scope_stops_and_reraises
        {A : Type} (self docker d : Docker) (body : Docker -> M A) (e : Exn)
        (w w1 w2 w3 : World) :
  start transport self w = (Ret docker, w1) ->
  body docker w1 = (Raise e, w2) ->
  stop transport self w2 = (Ret d, w3) ->
  __enter__ transport self w = start transport self w
  /\ with_ transport self body w = (Raise e, w3)
  /\ w3 = (w2 ++ [Slept 2; Executed ("docker kill " ++ container_name self);
                  Executed ("docker rm " ++ container_name self)])%list.
Proof.
  intros Hstart Hbody Hstop.
  split; [reflexivity |]. split; [| exact (proj2 (stop_inv _ _ _ _ Hstop))].
  unfold with_, __enter__. rewrite Hstart, Hbody.
  unfold __exit__, bind. rewrite Hstop.
  now destruct (exn_truthy e).
Qed.

End Run.

(** ** The properties at concrete containers *)

Section Concrete.
Import Py Re.

Lemma run_exit_recovers_status_witness :
  (0 <= 7 <= 255)%Z
  /\ exists result w',
      run (printing (sentinel_line 7)) demo ("exit " ++ str 7) "" [] = (Ret result, w')
      /\ return_code result = 7%Z
      /\ out result = ""
      /\ has_sentinel (out result) = false.
Proof.
  split; [lia |].
  apply (run_exit_recovers_status (printing (sentinel_line 7)) demo "" [] 7
                                  (mkResult (sentinel_line 7) "" 0));
    [lia | reflexivity | left; reflexivity].
Defined.

Lemma run_without_sentinel_unchanged_witness :
  search "Error: No such container" = None
  /\ exists result w',
      run (printing "Error: No such container") demo "ls" "" [] = (Ret result, w')
      /\ return_code result = 0%Z
      /\ out result = "Error: No such container"
      /\ result = mkResult "Error: No such container" "" 0.
Proof.
  split; [reflexivity |].
  apply (run_without_sentinel_unchanged (printing "Error: No such container") demo "ls" "" []
                                        (mkResult "Error: No such container" "" 0));
    reflexivity.
Defined.

(** C2: on the output of [echo --return-0--] followed by the sentinel
    line, the pattern matches the trailing copy only (at position 13), yet
    line 81 removes both copies: [run] returns a single line feed, where
    removing the matched occurrence alone leaves the earlier copy in the
    output. *)
Theorem run_removes_earlier_copy :
  let text := "--return-0--" ++ LF ++ sentinel_line 0 in
  exists m result w',
    search text = Some m
    /\ m_start m = 13
    /\ run (printing text) demo "echo --return-0--" "" [] = (Ret result, w')
    /\ out result = LF
    /\ drop_final_line_feed (without_match text m) = "--return-0--" ++ LF
    /\ out result <> drop_final_line_feed (without_match text m).
Proof.
  eexists _, _, _. split; [reflexivity |]. split; [reflexivity |].
  split; [reflexivity |]. split; [reflexivity |]. split; [reflexivity |].
  discriminate.
Qed.

Example run_removes_lone_match_abc :
  fst (run (printing ("abc" ++ LF ++ sentinel_line 0)) demo "echo abc" "" [])
  = Ret (mkResult ("abc" ++ LF) "" 0).
Proof. reflexivity. Qed.

(** The output of [printf %s 'a\n'], three characters without a final
    line feed, followed by the sentinel line: the optional group of the
    pattern takes the backslash and the [n], and [run] returns ["a"]. *)
Lemma run_truncates_backslash_n :
  let body := "a" ++ BACKSLASH_N in
  endswith body LF = false
  /\ exists m result w',
      search (body ++ sentinel_line 0) = Some m
      /\ group0 m = BACKSLASH_N ++ "--return-0--"
      /\ run (printing (body ++ sentinel_line 0)) demo "printf %s 'a\n'" "" []
         = (Ret result, w')
      /\ out result = "a"
      /\ out result <> body.
Proof.
  split; [reflexivity |].
  eexists _, _, _. split; [reflexivity |]. split; [reflexivity |].
  split; [reflexivity |]. split; [reflexivity | discriminate].
Defined.

Lemma run_keeps_last_character_witness :
  let text := "abc" ++ sentinel_line 0 in
  search text = Some (mkMatch 3 "--return-0--" "0")
  /\ exists result w',
      run (printing text) demo "printf abc" "" [] = (Ret result, w')
      /\ out result = "abc".
Proof.
  split; [reflexivity |].
  destruct (run_keeps_last_character
              (printing ("abc" ++ sentinel_line 0)) demo "printf abc" "" []
              (mkResult ("abc" ++ sentinel_line 0) "" 0)
              (mkMatch 3 "--return-0--" "0") eq_refl eq_refl)
    as (result & w' & Hrun & _ & _ & Hbody).
  exists result, w'. split; [exact Hrun |].
  apply (Hbody "abc" "0"); try reflexivity; try discriminate.
  intros [|[|[|k]]] Hk; try reflexivity. simpl in Hk. lia.
Defined.



Lemma read_file_text_or_absent_witness :
  exists answer w',
    read_file (printing ("cat: nope: No such file or directory" ++ LF ++ sentinel_line 1))
              demo "nope" [] = (Ret answer, w')
    /\ answer = None.
Proof.
  destruct (read_file_text_or_absent
              (printing ("cat: nope: No such file or directory" ++ LF ++ sentinel_line 1))
              demo "nope" []
              (mkResult ("cat: nope: No such file or directory" ++ LF ++ sentinel_line 1) "" 0)
              eq_refl)
    as (answer & w' & Hread & _ & _ & Hfail & _).
  exists answer, w'. split; [exact Hread |]. apply Hfail. reflexivity.
Defined.

Lemma list_files_keeps_checked_entries_witness :
  exists names w',
    list_files small_tree demo "d" [] = (Ret names, w')
    /\ names = ["a.txt"].
Proof.
  destruct (list_files_keeps_checked_entries
              small_tree demo "d" []
              (mkResult ("a.txt, b" ++ LF ++ sentinel_line 0) "" 0)
              (String.eqb "a.txt") (String.eqb ("b" ++ LF)))
    as (names & w' & Hrun & Hnames & _).
  - reflexivity.
  - intros w0 fp [<- | [<- | []]]; eexists; reflexivity.
  - intros w0 fp [<- | [<- | []]] _; eexists; reflexivity.
  - exists names, w'. split; [exact Hrun |]. rewrite Hnames. reflexivity.
Defined.

Lemma scope_stops_and_reraises_witness :
  let e := mkExn "ValueError" "boom" true in
  with_ quiet demo (failing_work e) []
  = (Raise e,
     [Executed "docker run -d --name dyn-0000 ubuntu /bin/sleep 3600";
      Slept 2; Executed "docker kill dyn-0000"; Executed "docker rm dyn-0000"]).
Proof.
  destruct (scope_stops_and_reraises
              quiet demo demo demo (failing_work (mkExn "ValueError" "boom" true))
              (mkExn "ValueError" "boom" true)
              []
              [Executed "docker run -d --name dyn-0000 ubuntu /bin/sleep 3600"]
              [Executed "docker run -d --name dyn-0000 ubuntu /bin/sleep 3600"]
              [Executed "docker run -d --name dyn-0000 ubuntu /bin/sleep 3600";
               Slept 2; Executed "docker kill dyn-0000"; Executed "docker rm dyn-0000"]
              eq_refl eq_refl eq_refl)
    as (_ & Hwith & _).
  exact Hwith.
Defined.

(** The command line of a command with single quotes, with the error
    stream folded into the output. *)
Example exec_command_line_quotes :
  exec_command_line (mkDocker "dyn-0000" 3600 "ubuntu" false true) "echo 'x'" "/tmp"
  = "docker exec -i dyn-0000 bash -c 'cd /tmp && echo " ++ DQUOTE ++ "x" ++ DQUOTE
    ++ " 2>&1 ;  echo " ++ DQUOTE ++ "--return-$?--" ++ DQUOTE ++ "'".
Proof. reflexivity. Qed.

(** The example of the specification: a directory with the file [a.txt]
    and the directory [b]. *)
Example list_files_small_tree :
  fst (list_files small_tree demo "d" []) = Ret ["a.txt"].
Proof. reflexivity. Qed.

(** An exception that is false as a truth value is raised again by the
    statement itself. *)
Example scope_reraises_falsy :
  fst (with_ quiet demo (failing_work (mkExn "Empty" "" false)) [])
  = Raise (mkExn "Empty" "" false).
Proof. reflexivity. Qed.

(** A failing start raises and nothing is torn down. *)
Example scope_start_fails :
  with_ (fun _ _ => Ret (mkResult "" "" 125)) demo (failing_work (mkExn "E" "" true)) []
  = (Raise (DockerUnavailableError "Starting the docker container failed."),
     [Executed "docker run -d --name dyn-0000 ubuntu /bin/sleep 3600"]).
Proof. reflexivity. Qed.

End Concrete.


(** * Further properties of the manager *)

(** ** The life of a container *)

Section Lifecycle.
Import Py PyFacts.

Variable transport : World -> string -> Outcome ProcessResult.

Lemma start_unfold (self : Docker) (w : World) :
  start transport self w
  = (match transport w (start_command_line self) with
     | Ret result =>
         if negb (succeeded result)
         then Raise (DockerUnavailableError "Starting the docker container failed.")
         else Ret self
     | Raise e => Raise e
     end, (w ++ [Executed (start_command_line self)])%list).
Proof.
  unfold start, start_command_line, bind, execute, raise, ret.
  destruct (privilege self);
    match goal with
    | |- context [transport w ?c] => destruct (transport w c) as [r|e]
    end; try reflexivity; now destruct (negb (succeeded r)).
Qed.

Lemma exit_returns_false (self : Docker) (exc_value : option Exn) (w w' : World) (b : bool) :
  __exit__ transport self exc_value w = (Ret b, w') -> b = false.
Proof.
  unfold __exit__, bind.
  destruct (stop transport self w) as [[d|e] w1]; [| discriminate].
  destruct exc_value as [e|]; [destruct (exn_truthy e) |];
    unfold raise, ret; congruence.
Qed.

(** X1: when the creation command ends with a status other than 0, the
    scope raises [DockerUnavailableError]; the unit of work is not run and
    nothing is torn down: the history holds the creation command alone. *)
Theorem scope_failed_start_runs_nothing
        {A : Type} (self : Docker) (body : Docker -> M A) (w : World) (r : ProcessResult) :
  transport w (start_command_line self) = Ret r ->
  return_code r <> 0%Z ->
  with_ transport self body w
  = (Raise (DockerUnavailableError "Starting the docker container failed."),
     (w ++ [Executed (start_command_line self)])%list).
Proof.
  intros Ht Hr. unfold with_, __enter__. rewrite start_unfold, Ht.
  unfold succeeded. apply Z.eqb_neq in Hr. now rewrite Hr.
Qed.


(** X3: the scope never ends silently after a failure: whatever the
    transport and the unit of work do, the statement does not complete
    without a value, because [__exit__] never returns a true value. *)
Theorem scope_never_suppresses
        {A : Type} (self : Docker) (body : Docker -> M A) (w : World) :
  fst (with_ transport self body w) <> Ret None.
Proof.
  unfold with_.
  destruct (__enter__ transport self w) as [[docker|e0] w1]; [| discriminate].
  destruct (body docker w1) as [[a|e] w2].
  - destruct (__exit__ transport self None w2) as [[b|e'] w3]; discriminate.
  - destruct (__exit__ transport self (Some e) w2) as [[b|e'] w3] eqn:E; [| discriminate].
    apply exit_returns_false in E. subst b. discriminate.
Qed.

(** X4: [stop] is a best-effort teardown: once [execute] returns for the
    kill and for the removal, [stop] returns the manager after one pause,
    one kill and one removal, whatever the two commands report. *)
Theorem stop_ignores_command_results
        (self : Docker) (w : World) (killed removed : ProcessResult) :
  transport (w ++ [Slept 2])%list ("docker kill " ++ container_name self) = Ret killed ->
  transport (w ++ [Slept 2; Executed ("docker kill " ++ container_name self)])%list
            ("docker rm " ++ container_name self) = Ret removed ->
  stop transport self w = (Ret self, (w ++ teardown_events self)%list).
Proof.
  intros Hk Hr. unfold stop, bind, sleep, execute, ret, teardown_events.
  rewrite Hk.
  replace ((w ++ [Slept 2]) ++ [Executed ("docker kill " ++ container_name self)])%list
    with (w ++ [Slept 2; Executed ("docker kill " ++ container_name self)])%list
    by (now rewrite <- List.app_assoc).
  rewrite Hr. now rewrite <- List.app_assoc.
Qed.

(** X5: a failure of [execute] during the teardown takes the place of the
    failure of the unit of work: when the kill raises, the scope raises
    that failure and the removal is not attempted. *)
Theorem scope_teardown_failure_wins
        {A : Type} (self : Docker) (body : Docker -> M A) (e e' : Exn)
        (r : ProcessResult) (w w2 : World) :
  transport w (start_command_line self) = Ret r ->
  return_code r = 0%Z ->
  body self (w ++ [Executed (start_command_line self)])%list = (Raise e, w2) ->
  transport (w2 ++ [Slept 2])%list ("docker kill " ++ container_name self) = Raise e' ->
  with_ transport self body w
  = (Raise e', (w2 ++ [Slept 2; Executed ("docker kill " ++ container_name self)])%list).
Proof.
  intros Ht Hr Hbody Hk.
  unfold with_, __enter__. rewrite start_unfold, Ht.
  unfold succeeded. rewrite Hr. cbn [Z.eqb negb]. rewrite Hbody.
  unfold __exit__, stop, bind, sleep, execute. rewrite Hk.
  now rewrite <- List.app_assoc.
Qed.

End Lifecycle.

(** ** Cleaning the output *)

Section Cleaning.
Import Py PyFacts Re ReFacts.

Lemma result_eta (r : ProcessResult) : r = mkResult (out r) (err r) (return_code r).
Proof. now destruct r. Qed.

Lemma str_of_Z_of_N (n : N) : str (Z.of_N n) = str_of_N n.
Proof. now destruct n. Qed.

Lemma length_take_le (n : nat) (s : string) : length (take n s) <= length s.
Proof.
  revert s; induction n as [|n IH]; intros [|c s]; simpl; try lia.
  specialize (IH s). lia.
Qed.

(** Removing occurrences never yields more than the text that was not
    passed over. *)
Lemma replace_scan_length (old s : string) :
  forall skip, length (replace_scan old "" s skip) <= length s - skip.
Proof.
  induction s as [|c s IH]; intros skip; [simpl; lia |].
  cbn [replace_scan]. destruct skip as [|k].
  - destruct (startswith (String c s) old).
    + simpl. specialize (IH (length old - 1)). lia.
    + simpl. specialize (IH 0). lia.
  - simpl. apply IH.
Qed.

(** Where [old] occurs, removing its occurrences takes away at least the
    length of [old]. *)
Lemma replace_scan_removes (old s : string) :
  old <> "" ->
  forall k, startswith (drop k s) old = true ->
            length (replace_scan old "" s 0) + length old <= length s.
Proof.
  intros Hne. induction s as [|c s IH]; intros k Hk.
  - destruct old; [congruence |]. now destruct k.
  - cbn [replace_scan]. destruct (startswith (String c s) old) eqn:E.
    + apply startswith_length in E.
      pose proof (replace_scan_length old s (length old - 1)) as H.
      destruct old; [congruence |]. simpl in *. lia.
    + destruct k as [|k]; [simpl in Hk; congruence |].
      simpl in Hk. specialize (IH k Hk). simpl. lia.
Qed.

(** X6: cleaning never lengthens the output and never touches the error
    text; when the pattern is found, the recovered status is not negative
    and the output loses at least the twelve characters of the shortest
    sentinel. *)
Theorem recover_status_only_shrinks (raw : ProcessResult) :
  length (out (recover_status raw)) <= length (out raw)
  /\ err (recover_status raw) = err raw
  /\ (forall m, search (out raw) = Some m ->
                (0 <= return_code (recover_status raw))%Z
                /\ length (out (recover_status raw)) + 12 <= length (out raw)).
Proof.
  destruct (search (out raw)) as [m|] eqn:Hs.
  - destruct (recover_found raw m Hs) as (Hc & Ho & He).
    assert (Hdrop : forall t, length (drop_final_line_feed t) <= length t).
    { intros t. unfold drop_final_line_feed.
      destruct (endswith t LF); [apply length_take_le | lia]. }
    pose proof Hs as Hs'. unfold search in Hs'.
    apply search_from_inv in Hs' as (a & b & Hraw & _ & Hb).
    apply match_here_inv in Hb as (pre & post & _ & _ & _ & Hg1 & Hg0 & ->).
    assert (Hne : group0 m <> "") by (rewrite Hg0; destruct pre; discriminate).
    assert (Hlen : 12 <= length (group0 m)).
    { rewrite Hg0, !length_app. destruct (group1 m); [congruence | simpl; lia]. }
    assert (Hocc : startswith (drop (length a) (out raw)) (group0 m) = true).
    { rewrite Hraw, drop_app. apply startswith_app. }
    pose proof (replace_scan_removes _ _ Hne _ Hocc) as Hrm.
    assert (Hcut : length (out (recover_status raw)) + 12 <= length (out raw)).
    { rewrite Ho. specialize (Hdrop (replace (out raw) (group0 m) "")).
      rewrite (replace_nonempty _ _ _ Hne) in *. lia. }
    split; [lia |]. split; [exact He |].
    intros m' [= <-]. split; [| exact Hcut].
    rewrite Hc. unfold int. destruct (NilZero.uint_of_string (group1 m)); lia.
  - rewrite (recover_not_found raw Hs). split; [lia |]. split; [reflexivity |].
    intros m [=].
Qed.

(** An output that ends with the sentinel line of the digits [ds], does
    not end in backslash-n before it and holds no earlier copy of the
    sentinel text is cleaned to the output of the command itself. *)
Lemma recover_clean_output (raw : ProcessResult) (body ds : string) :
  out raw = body ++ "--return-" ++ ds ++ "--" ++ LF ->
  all_digits ds = true -> ds <> "" ->
  endswith body BACKSLASH_N = false ->
  (forall k, k < length body ->
             startswith (drop k (out raw)) ("--return-" ++ ds ++ "--") = false) ->
  recover_status raw = mkResult body (err raw) (int ds).
Proof.
  intros Hraw Hd Hne Hbody Hfirst.
  destruct (search_recovers body ds Hd Hne) as (m & Hs & Hg1).
  destruct (search_shape body ds m Hd Hne Hs) as (a & pre & Hpre & Hb & _ & Hg0 & _).
  rewrite <- Hraw in Hs.
  destruct (recover_found raw m Hs) as (Hc & Ho & He).
  rewrite (result_eta (recover_status raw)), Hc, Ho, He, Hg1. f_equal.
  destruct Hpre as [-> | ->].
  2:{ rewrite Hb, endswith_app in Hbody. discriminate. }
  simpl in Hg0. rewrite Hg0, Hraw. rewrite Hraw in Hfirst.
  rewrite replace_nonempty by discriminate.
  replace (body ++ "--return-" ++ ds ++ "--" ++ LF)
    with (body ++ ("--return-" ++ ds ++ "--") ++ LF) in *
    by (now rewrite !app_assoc).
  rewrite replace_scan_first; auto; [| discriminate | rewrite !length_app; simpl; lia].
  change ("" ++ LF) with LF. unfold drop_final_line_feed.
  rewrite endswith_app, length_app. simpl.
  replace (length body + 1 - 1) with (length body) by lia. apply take_app.
Qed.

End Cleaning.

(** ** Commands and files *)

Section Introspection.
Import Py PyFacts Re ReFacts.

Variable transport : World -> string -> Outcome ProcessResult.

Lemma run_unfold (self : Docker) (command working_directory : string) (w : World) :
  run transport self command working_directory w
  = (match transport w (exec_command_line self command working_directory) with
     | Ret raw => Ret (recover_status raw)
     | Raise e => Raise e
     end, (w ++ [Executed (exec_command_line self command working_directory)])%list).
Proof.
  unfold run, bind, execute, ret.
  now destruct (transport w (exec_command_line self command working_directory)).
Qed.

(** X7: when the output of the transport is the output of the command
    followed by the sentinel line of the status [n], the output of the
    command does not end in backslash-n, and no occurrence of the sentinel
    text begins at a position inside the output of the command when the raw
    output is read as a whole (an occurrence that runs over into the
    sentinel line counts), [run] returns the output of the command byte for
    byte, the status [n] instead of the status of the transport, and the
    error text as it came. *)
Theorem run_result_of_clean_output
        (self : Docker) (command working_directory : string) (w : World)
        (raw : ProcessResult) (body : string) (n : N) :
  transport w (exec_command_line self command working_directory) = Ret raw ->
  out raw = body ++ sentinel_line (Z.of_N n) ->
  endswith body BACKSLASH_N = false ->
  (forall k, k < length body ->
             startswith (drop k (out raw)) ("--return-" ++ str_of_N n ++ "--") = false) ->
  run transport self command working_directory w
  = (Ret (mkResult body (err raw) (Z.of_N n)),
     (w ++ [Executed (exec_command_line self command working_directory)])%list).
Proof.
  intros Ht Hout Hbody Hfirst.
  rewrite run_unfold, Ht. unfold sentinel_line in Hout. rewrite str_of_Z_of_N in Hout.
  destruct (str_of_N_digits n) as [Hd Hne].
  now rewrite (recover_clean_output raw body _ Hout Hd Hne Hbody Hfirst), int_str_of_N.
Qed.

(** X8: [read_file] returns the content that [cat] wrote, byte for byte
    and with its own final line feed if it has one, when the output of the
    transport is that content followed by the sentinel line of status 0,
    the content does not end in backslash-n, and no occurrence of
    [--return-0--] begins at a position inside the content when the raw
    output is read as a whole (an occurrence that runs over into the
    sentinel line counts). *)
Theorem read_file_returns_content
        (self : Docker) (path : string) (w : World) (raw : ProcessResult) (content : string) :
  transport w (exec_command_line self ("cat " ++ _get_working_directory path) "") = Ret raw ->
  out raw = content ++ sentinel_line 0 ->
  endswith content BACKSLASH_N = false ->
  (forall k, k < length content ->
             startswith (drop k (out raw)) "--return-0--" = false) ->
  fst (read_file transport self path w) = Ret (Some content).
Proof.
  intros Ht Hout Hbody Hfirst.
  unfold read_file, bind. rewrite run_unfold, Ht.
  rewrite (recover_clean_output raw content "0" Hout eq_refl ltac:(discriminate) Hbody Hfirst).
  reflexivity.
Qed.

(** X9: the existence checks answer from the status on the sentinel line,
    not from the status of the transport: with the sentinel line of the
    status [n] at the tail of the output, whatever precedes it, [file_exist]
    and [directory_exist] return true exactly when [n] is 0. *)
Theorem existence_checks_follow_sentinel
        (self : Docker) (path : string) (w : World) (raw : ProcessResult)
        (body : string) (n : N) :
  out raw = body ++ sentinel_line (Z.of_N n) ->
  (transport w (exec_command_line self ("test -f " ++ _get_working_directory path) "")
   = Ret raw ->
   fst (file_exist transport self path w) = Ret (N.eqb n 0))
  /\ (transport w (exec_command_line self ("test -d " ++ _get_working_directory path) "")
      = Ret raw ->
      fst (directory_exist transport self path w) = Ret (N.eqb n 0)).
Proof.
  intros Hout. unfold sentinel_line in Hout. rewrite str_of_Z_of_N in Hout.
  destruct (str_of_N_digits n) as [Hd Hne].
  destruct (search_recovers body _ Hd Hne) as (m & Hm & Hg).
  rewrite <- Hout in Hm.
  destruct (recover_found raw m Hm) as (Hc & _).
  rewrite Hg, int_str_of_N in Hc.
  assert (Heq : Z.eqb (return_code (recover_status raw)) 0 = N.eqb n 0).
  { rewrite Hc. now destruct n. }
  split; intros Ht.
  - unfold file_exist, bind. rewrite run_unfold, Ht. unfold ret. cbn [fst]. now rewrite Heq.
  - unfold directory_exist, bind. rewrite run_unfold, Ht. unfold ret. cbn [fst]. now rewrite Heq.
Qed.

Lemma map_string_app (f : ascii -> ascii) (a b : string) :
  map_string f (a ++ b) = map_string f a ++ map_string f b.
Proof. induction a as [|c a IH]; simpl; [reflexivity | now rewrite IH]. Qed.

(** X10: [create_file] hands one command line to [execute], in which every
    single quote of the content and of the path has become a double quote:
    the text between the quotes of the transport holds no single quote. *)
Theorem create_file_rewrites_quotes
        (self : Docker) (path content : string) (w : World) :
  let payload :=
    "cd ~/ && echo " ++ DQUOTE ++ map_string requote content ++ DQUOTE ++ " >> "
    ++ map_string requote (_get_working_directory path)
    ++ (if combine_outputs self then " 2>&1" else "") ++ sentinel_emission in
  snd (create_file transport self path content w)
  = (w ++ [Executed ("docker exec -i " ++ container_name self ++ " bash -c '"
                     ++ payload ++ "'")])%list
  /\ contains_char "'" payload = false.
Proof.
  intros payload. subst payload. split.
  - unfold create_file. rewrite run_unfold. cbn [snd]. do 2 f_equal.
    unfold exec_command_line. rewrite replace_quotes.
    rewrite !map_string_app. change (_get_working_directory "") with "~/".
    change (map_string requote "echo ") with "echo ".
    change (map_string requote " >> ") with " >> ".
    change (map_string requote DQUOTE) with DQUOTE.
    now rewrite !app_assoc.
  - rewrite !contains_char_app, !requoted_has_no_quote.
    now destruct (combine_outputs self).
Qed.

End Introspection.

(** ** Listings *)

Section Listings.
Import Py PyFacts.

Variable transport : World -> string -> Outcome ProcessResult.

Lemma startswith_app_l (a b p : string) :
  startswith a p = true -> startswith (a ++ b) p = true.
Proof.
  intros H. rewrite (startswith_inv _ _ H), app_assoc. apply startswith_app.
Qed.

(** X11: the paths that [list_files] checks are resolved already: an entry
    joined to a resolved path is left as it is by the resolver, so
    [file_exist] and [directory_exist] test exactly the joined path. *)
Theorem joined_path_is_resolved (path file_path : string) :
  _get_working_directory (os_path_join (_get_working_directory path) file_path)
  = os_path_join (_get_working_directory path) file_path.
Proof.
  apply resolver_absolute.
  assert (Hp : (startswith (_get_working_directory path) "/"
                || startswith (_get_working_directory path) "~/")%bool = true).
  { unfold _get_working_directory.
    destruct (startswith path "/" || startswith path "~/")%bool eqn:E; [exact E |].
    apply orb_true_iff. right. apply startswith_app. }
  unfold os_path_join.
  destruct (startswith file_path "/") eqn:Ef; [now rewrite Ef |].
  apply orb_true_iff in Hp. apply orb_true_iff.
  destruct ((_get_working_directory path =? "")%string
            || endswith (_get_working_directory path) "/")%bool;
    destruct Hp as [Hp | Hp]; [left | right | left | right];
    now apply startswith_app_l.
Qed.






End Listings.

(** ** Directories, entries and names *)

Section Directories.
Import Py PyFacts.

Variable transport : World -> string -> Outcome ProcessResult.

Lemma list_directories_loop_filters (self : Docker) (path : string) (isd : string -> bool)
      (flag : bool) (entries : list string) :
  (forall w0 fp, In fp entries ->
                 exists w1, directory_exist transport self (os_path_join path fp) w0
                            = (Ret (isd fp), w1)) ->
  forall result w,
  exists w',
    list_directories_loop transport self path flag entries result w
    = (Ret (result ++ (if flag then filter isd entries
                       else map without_last (filter isd entries)))%list, w').
Proof.
  induction entries as [|fp entries IH]; intros Hd result w.
  - exists w. destruct flag; simpl; now rewrite List.app_nil_r.
  - assert (Hd' : forall w0 fp0, In fp0 entries ->
                    exists w2, directory_exist transport self (os_path_join path fp0) w0
                               = (Ret (isd fp0), w2))
      by (intros; apply Hd; now right).
    cbn [list_directories_loop filter]. unfold bind at 1.
    destruct (Hd w fp (or_introl eq_refl)) as [w1 ->].
    destruct (isd fp); [| apply IH; assumption].
    destruct flag.
    + destruct (IH Hd' (result ++ [fp])%list w1) as [w' ->].
      exists w'. now rewrite <- List.app_assoc.
    + destruct (IH Hd' (result ++ [take (length fp - 1) fp])%list w1) as [w' ->].
      exists w'. cbn [map]. now rewrite <- List.app_assoc.
Qed.

(** X13: [list_directories] returns the entries of the listing that pass
    the directory check, in the order of the listing; without the trailing
    slash it returns the same entries, each without its last character,
    whatever that character is. *)
Theorem list_directories_keeps_checked_entries
        (self : Docker) (path : string) (w : World) (listing : ProcessResult)
        (isd : string -> bool) :
  let candidates := split (out (recover_status listing)) ", " in
  transport w (exec_command_line self "ls -dm */" (_get_working_directory path))
  = Ret listing ->
  (forall w0 fp, In fp candidates ->
                 exists w1, directory_exist transport self (os_path_join path fp) w0
                            = (Ret (isd fp), w1)) ->
  fst (list_directories transport self path true w) = Ret (filter isd candidates)
  /\ fst (list_directories transport self path false w)
     = Ret (map without_last (filter isd candidates)).
Proof.
  intros candidates Ht Hd.
  unfold list_directories, bind. rewrite (run_returns transport _ _ _ _ _ Ht).
  fold candidates. split.
  - destruct (list_directories_loop_filters self path isd true candidates Hd []
                (w ++ [Executed (exec_command_line self "ls -dm */"
                                                   (_get_working_directory path))])%list)
      as [w' ->]. reflexivity.
  - destruct (list_directories_loop_filters self path isd false candidates Hd []
                (w ++ [Executed (exec_command_line self "ls -dm */"
                                                   (_get_working_directory path))])%list)
      as [w' ->]. reflexivity.
Qed.

Lemma split_scan_skip (sep a b : string) :
  forall cur, split_scan sep (a ++ b) (length a) cur = split_scan sep b 0 cur.
Proof. induction a as [|c a IH]; intros cur; simpl; [now destruct b | apply IH]. Qed.

Lemma concat_cons (sep x : string) (l : list string) :
  l <> [] -> String.concat sep (x :: l) = x ++ sep ++ String.concat sep l.
Proof. destruct l; [congruence | reflexivity]. Qed.

Lemma split_scan_not_nil (sep s : string) (skip : nat) (cur : string) :
  split_scan sep s skip cur <> [].
Proof.
  revert skip cur; induction s as [|x s IH]; intros skip cur; cbn [split_scan];
    [discriminate |].
  destruct skip; [| apply IH].
  destruct (startswith (String x s) sep); [discriminate | apply IH].
Qed.

Lemma concat_split_scan (sep : string) :
  sep <> "" ->
  forall n s cur, length s <= n -> String.concat sep (split_scan sep s 0 cur) = cur ++ s.
Proof.
  intros Hne. induction n as [|n IH]; intros s cur Hlen.
  - destruct s; [simpl; now rewrite app_nil_r | simpl in Hlen; lia].
  - destruct s as [|c s]; [simpl; now rewrite app_nil_r |].
    cbn [split_scan]. destruct (startswith (String c s) sep) eqn:E.
    + pose proof (startswith_inv _ _ E) as Hs.
      destruct sep as [|a sep']; [congruence |].
      cbn [length drop append] in Hs. injection Hs as Hc Hs. subst a.
      replace (length (String c sep') - 1) with (length sep') by (simpl; lia).
      rewrite Hs, split_scan_skip.
      rewrite concat_cons by apply split_scan_not_nil.
      rewrite IH.
      * simpl. rewrite <- Hs. reflexivity.
      * rewrite length_drop. simpl in Hlen. lia.
    + rewrite IH by (simpl in Hlen; lia).
      now rewrite app_assoc.
Qed.

(** X14: splitting loses nothing: for a separator that is not empty, the
    pieces of a text joined again by the separator are the text, so the
    entries that [list_files] and [list_directories] examine, joined by
    ", ", are the cleaned output of the listing; and there is always at
    least one piece. *)
Theorem split_then_join (s sep : string) :
  sep <> "" ->
  String.concat sep (split s sep) = s /\ split s sep <> [].
Proof.
  intros Hne. split; [| apply split_scan_not_nil].
  unfold split. now rewrite (concat_split_scan sep Hne (length s) s "").
Qed.

(** X15: two managers built with the same name prefix have the same
    container name only when they were given the same identifier. *)
Theorem container_names_differ
        (image1 image2 name_prefix : string) (timeout1 timeout2 : Z)
        (privilege1 privilege2 combine1 combine2 : bool) (uuid1 uuid2 : string) :
  container_name (Docker_init image1 name_prefix timeout1 privilege1 combine1 uuid1)
  = container_name (Docker_init image2 name_prefix timeout2 privilege2 combine2 uuid2) ->
  uuid1 = uuid2.
Proof.
  unfold Docker_init. cbn [container_name]. intros H.
  apply app_inv_head in H. now injection H.
Qed.

End Directories.


(** ** The further properties at concrete containers *)

Section FurtherConcrete.
Import Py Re.

Lemma scope_failed_start_runs_nothing_witness :
  with_ refusing demo echo_work []
  = (Raise (DockerUnavailableError "Starting the docker container failed."),
     [Executed "docker run -d --name dyn-0000 ubuntu /bin/sleep 3600"]).
Proof.
  apply (scope_failed_start_runs_nothing
           refusing demo echo_work []
           (mkResult "" "docker: Error response from daemon" 125));
    [reflexivity | discriminate].
Defined.


Lemma stop_ignores_command_results_witness :
  stop refusing demo []
  = (Ret demo, [Slept 2; Executed "docker kill dyn-0000"; Executed "docker rm dyn-0000"]).
Proof.
  apply (stop_ignores_command_results
           refusing demo []
           (mkResult "" "docker: Error response from daemon" 125)
           (mkResult "" "docker: Error response from daemon" 125));
    reflexivity.
Defined.

Lemma scope_teardown_failure_wins_witness :
  with_ losing_daemon demo (failing_work (mkExn "ValueError" "boom" true)) []
  = (Raise daemon_lost,
     [Executed "docker run -d --name dyn-0000 ubuntu /bin/sleep 3600";
      Slept 2; Executed "docker kill dyn-0000"]).
Proof.
  apply (scope_teardown_failure_wins
           losing_daemon demo (failing_work (mkExn "ValueError" "boom" true))
           (mkExn "ValueError" "boom" true) daemon_lost (mkResult "" "" 0) []
           [Executed "docker run -d --name dyn-0000 ubuntu /bin/sleep 3600"]);
    reflexivity.
Defined.

Lemma recover_status_only_shrinks_witness :
  let raw := mkResult ("abc" ++ LF ++ sentinel_line 3) "warning" 0 in
  search (out raw) = Some (mkMatch 4 "--return-3--" "3")
  /\ (0 <= return_code (recover_status raw))%Z
  /\ length (out (recover_status raw)) + 12 <= length (out raw).
Proof.
  split; [reflexivity |].
  destruct (recover_status_only_shrinks (mkResult ("abc" ++ LF ++ sentinel_line 3) "warning" 0))
    as (_ & _ & Hfound).
  apply (Hfound (mkMatch 4 "--return-3--" "3")). reflexivity.
Defined.

Lemma run_result_of_clean_output_witness :
  run (printing ("abc" ++ sentinel_line 3)) demo "printf abc; exit 3" "" []
  = (Ret (mkResult "abc" "" 3),
     [Executed (exec_command_line demo "printf abc; exit 3" "")]).
Proof.
  apply (run_result_of_clean_output
           (printing ("abc" ++ sentinel_line 3)) demo "printf abc; exit 3" "" []
           (mkResult ("abc" ++ sentinel_line 3) "" 0) "abc" 3%N);
    try reflexivity.
  intros [|[|[|k]]] Hk; try reflexivity. simpl in Hk. lia.
Defined.

Lemma read_file_returns_content_witness :
  fst (read_file (printing ("hi" ++ LF ++ sentinel_line 0)) demo "notes.txt" [])
  = Ret (Some ("hi" ++ LF)).
Proof.
  apply (read_file_returns_content
           (printing ("hi" ++ LF ++ sentinel_line 0)) demo "notes.txt" []
           (mkResult ("hi" ++ LF ++ sentinel_line 0) "" 0) ("hi" ++ LF));
    try reflexivity.
  intros [|[|[|k]]] Hk; try reflexivity. simpl in Hk. lia.
Defined.

Lemma existence_checks_follow_sentinel_witness :
  fst (file_exist (printing (sentinel_line 1)) demo "nope" []) = Ret false.
Proof.
  apply (existence_checks_follow_sentinel
           (printing (sentinel_line 1)) demo "nope" [] (mkResult (sentinel_line 1) "" 0)
           "" 1%N eq_refl).
  reflexivity.
Defined.


Lemma list_directories_keeps_checked_entries_witness :
  fst (list_directories two_directories demo "d" true []) = Ret ["b/"; "c/" ++ LF]
  /\ fst (list_directories two_directories demo "d" false []) = Ret ["b"; "c/"].
Proof.
  apply (list_directories_keeps_checked_entries
           two_directories demo "d" []
           (mkResult ("b/, c/" ++ LF ++ sentinel_line 0) "" 0)
           (fun _ => true)).
  - reflexivity.
  - intros w0 fp [<- | [<- | []]]; eexists; reflexivity.
Defined.

Lemma split_then_join_witness :
  String.concat ", " (split "a.txt, b" ", ") = "a.txt, b" /\ split "a.txt, b" ", " <> [].
Proof. apply (split_then_join "a.txt, b" ", "). discriminate. Defined.

Lemma container_names_differ_witness : "0000" = "0000".
Proof.
  apply (container_names_differ "ubuntu" "debian" "dyn" 3600 60 false true false true
                                "0000" "0000").
  reflexivity.
Defined.

End FurtherConcrete.
